(** * The [Hint] class of src/packages/hint/hint.ts

    A shallow embedding of the class as a small object store with a
    state-and-exception monad, and the properties of its public methods. *)

From Stdlib Require Import ZArith Lia.
From stdpp Require Import base gmap list strings.

(** ** JavaScript values *)

(** Objects and functions are compared by identity. *)
Definition loc := nat.
Definition fn := nat.

(** Numbers are modelled as integers: the ones the class handles are step
    indices and a delay in milliseconds. *)
Inductive Value :=
| VUndefined
| VNull
| VBool (b : bool)
| VNumber (n : Z)
| VString (s : string)
| VObject (l : loc)
| VFunction (f : fn).

#[global] Instance Value_eq_dec : EqDecision Value.
Proof. solve_decision. Defined.

(** [new Error(message)] and the engine's [TypeError]. *)
Inductive Exception :=
| Error (message : string)
| TypeError (message : string).

(** [!v] is [negb (truthy v)]. *)
Definition truthy (v : Value) : bool :=
  match v with
  | VUndefined | VNull => false
  | VBool b => b
  | VNumber n => negb (n =? 0)%Z
  | VString s => negb (String.eqb s "")
  | VObject _ | VFunction _ => true
  end.

(** Modelled from the spec: util/isFunction is not among the sources; the
    registrars reject "a non-function value", so it is the test
    [typeof x === "function"]. *)
Definition isFunction (v : Value) : bool :=
  match v with
  | VFunction _ => true
  | _ => false
  end.

(** ** The data of the widget *)

Definition HTMLElement := nat.

(** The constructor's [elementOrSelector?: string | HTMLElement]. *)
Inductive ElementOrSelector :=
| Selector (s : string)
| Element (e : HTMLElement).

(** Modelled from the spec: [HintItem] is declared in ./hintItem, which is
    not among the sources. The spec describes it as a display record with
    a target selector, a display text, a position hint and an assigned
    step index. *)
Record HintItem := mkHintItem {
  element : string;
  hint : string;
  hintPosition : string;
  step : option Z;
}.

(** [HintOptions] and [Partial<HintOptions>] are plain objects read and
    written by key. *)
Abbreviation Options := (gmap string Value).

(** The fields of a [Hint] instance. [_hints] is a reference to an array;
    [_options] is [None] while the field is still unassigned; [callbacks]
    is an object keyed by callback name. *)
Record Hint := mkHint {
  _hints : loc;
  _targetElement : HTMLElement;
  _options : option Options;
  callbacks : gmap string Value;
  _hintsAutoRefreshFunction : option fn;
}.

(** A listener of [window]: event type, listener, [useCapture]. *)
Definition Listener : Type := string * fn * bool.

(** The function object made by [debounce(() => reAlignHints(hint), wait)]. *)
Record Closure := Debounced {
  closure_hint : loc;
  closure_wait : Value;
}.

(** The store: the [Hint] instances, the [HintItem[]] arrays, the
    [data-step] of each hint marker rendered in the document, the listeners
    of [window], and the function objects made by [debounce], each named
    by its position. *)
Record World := mkWorld {
  instances : gmap loc Hint;
  arrays : gmap loc (list HintItem);
  markers : list Z;
  listeners : list Listener;
  closures : list Closure;
}.

Definition empty_world : World := mkWorld ∅ ∅ [] [] [].

(** ** State and exceptions *)

(** A call either returns a value or throws; both leave a store behind.
    For an [async] method, [Return] is the promise resolving and [Throw] is
    the promise rejecting: every [await] of the class is sequential. *)
Inductive Outcome (A : Type) :=
| Return (a : A) (w : World)
| Throw (e : Exception) (w : World).
Arguments Return {A} a w.
Arguments Throw {A} e w.

Definition M (A : Type) : Type := World -> Outcome A.

Definition ret {A} (a : A) : M A := fun w => Return a w.

Definition bind {A B} (m : M A) (k : A -> M B) : M B :=
  fun w =>
    match m w with
    | Return a w' => k a w'
    | Throw e w' => Throw e w'
    end.

Definition throw {A} (e : Exception) : M A := fun w => Throw e w.

Definition effect (f : World -> World) : M unit := fun w => Return tt (f w).

Declare Scope js_scope.
Delimit Scope js_scope with js.
Notation "x <- c ;; k" := (bind c (fun x => k))
  (at level 100, c at next level, right associativity) : js_scope.
Notation "c ;; k" := (bind c (fun _ => k))
  (at level 100, right associativity) : js_scope.
Local Open Scope js_scope.

(** Store updates, one per component. *)
Definition set_instances (f : gmap loc Hint -> gmap loc Hint) (w : World) : World :=
  mkWorld (f (instances w)) (arrays w) (markers w) (listeners w) (closures w).
Definition set_arrays
    (f : gmap loc (list HintItem) -> gmap loc (list HintItem)) (w : World) : World :=
  mkWorld (instances w) (f (arrays w)) (markers w) (listeners w) (closures w).
Definition set_markers (f : list Z -> list Z) (w : World) : World :=
  mkWorld (instances w) (arrays w) (f (markers w)) (listeners w) (closures w).
Definition set_listeners (f : list Listener -> list Listener) (w : World) : World :=
  mkWorld (instances w) (arrays w) (markers w) (f (listeners w)) (closures w).

(** Field assignments of an instance. *)
Definition with_hints (a : loc) (o : Hint) : Hint :=
  mkHint a (_targetElement o) (_options o) (callbacks o) (_hintsAutoRefreshFunction o).
Definition with_options (opts : option Options) (o : Hint) : Hint :=
  mkHint (_hints o) (_targetElement o) opts (callbacks o) (_hintsAutoRefreshFunction o).
Definition with_callbacks (c : gmap string Value) (o : Hint) : Hint :=
  mkHint (_hints o) (_targetElement o) (_options o) c (_hintsAutoRefreshFunction o).
Definition with_autoRefresh (f : option fn) (o : Hint) : Hint :=
  mkHint (_hints o) (_targetElement o) (_options o) (callbacks o) f.

(** Reading and writing the fields of [this]. *)
Definition read (this : loc) : M Hint :=
  fun w =>
    match instances w !! this with
    | Some o => Return o w
    | None => Throw (TypeError "not a Hint instance") w
    end.

Definition write (this : loc) (o : Hint) : M unit :=
  effect (set_instances (insert this o)).

Definition read_array (a : loc) : M (list HintItem) :=
  fun w =>
    match arrays w !! a with
    | Some xs => Return xs w
    | None => Throw (TypeError "not an array") w
    end.

(** [xs[i]]: [undefined] outside the array. *)
Definition array_get {A} (xs : list A) (i : Z) : option A :=
  if decide (0 <= i)%Z then xs !! Z.to_nat i else None.

(** [a.push(x)] *)
Definition array_push (a : loc) (x : HintItem) : M unit :=
  xs <- read_array a ;;
  effect (set_arrays (insert a (xs ++ [x]))).

(** [[]]: a new array. *)
Definition new_array (xs : list HintItem) : M loc :=
  fun w =>
    let a := fresh (dom (arrays w)) in
    Return a (set_arrays (insert a xs) w).

(** [this.f = v]: a field assignment on [this]. *)
Definition assign (this : loc) (f : Hint -> Hint) : M unit :=
  o <- read this ;;
  write this (f o).

(** ** The collaborators of the class *)

Module Ext.

(** Modelled from the spec: the modules hint.ts imports these from are not
    among the sources. The spec treats them as opaque dependencies through
    which errors are not propagated: each is an arbitrary effect on the
    store that returns. [getDefaultHintOptions] is the table of default
    options and [getContainerElement] the container resolver.
    [ToNumber_engine] is the engine's number conversion of a string, an
    object or a function, [None] standing for NaN. *)
Class Collaborators := {
  getDefaultHintOptions : Options;
  getContainerElement : option ElementOrSelector -> HTMLElement;
  fetchHintItems : loc -> World -> World;
  renderHints : loc -> World -> World;
  hideHint : loc -> Z -> World -> World;
  hideHints : loc -> World -> World;
  showHint : Z -> World -> World;
  showHints : loc -> World -> World;
  removeHint : Z -> World -> World;
  showHintDialog : loc -> Z -> World -> World;
  ToNumber_engine : Value -> option Z;
}.

(** Modelled from the spec: [removeHints] of ./remove is not among the
    sources. By the spec it "removes all previously rendered DOM hint
    markers" and leaves the in-memory list as it is. *)
Definition removeHints (hint : loc) : M unit :=
  effect (set_markers (fun _ => [])).

End Ext.

Module OptionUtil.

(** Modelled from the spec: ../../option is not among the sources. The
    spec describes the options as a record "merged via shallow key
    overrides": the key is written onto the given record, and the record
    is returned. The spec does not say what happens on an [undefined]
    record; the model takes the write as a property write, which raises
    [TypeError] there. The key [__proto__], whose write sets the prototype
    instead, is outside the model. *)
Definition setOption (options : option Options) (key : string) (value : Value)
  : M (option Options) :=
  match options with
  | Some o => ret (Some (<[key := value]> o))
  | None => throw (TypeError "Cannot set properties of undefined")
  end.

(** Modelled from the spec: ../../option is not among the sources. Each
    entry of the partial record is written onto the given record by
    [setOption], so the keys of the partial record override and the others
    are kept. *)
Definition setOptions (options : option Options) (partialOptions : Options)
  : M (option Options) :=
  foldr
    (fun entry written => options' <- written ;; setOption options' entry.1 entry.2)
    (ret options)
    (map_to_list partialOptions).

End OptionUtil.

(** [window.addEventListener] and [window.removeEventListener] on the list
    of listeners: a listener already registered is not registered twice. *)
Definition addEventListener (l : Listener) (ls : list Listener) : list Listener :=
  if decide (l ∈ ls) then ls else ls ++ [l].

Definition removeEventListener (l : Listener) (ls : list Listener) : list Listener :=
  filter (fun l' => l' ≠ l) ls.

Module DOMEvent.

(** Modelled from the spec: util/DOMEvent is not among the sources; it is
    "a generic DOM event subscription wrapper". [on] is [addEventListener]
    on [window], which ignores a listener already registered for the same
    type and capture flag. *)
Definition on (type : string) (listener : fn) (useCapture : bool) : M unit :=
  effect (set_listeners (addEventListener (type, listener, useCapture))).

(** Modelled from the spec: util/DOMEvent is not among the sources. [off]
    is [removeEventListener] on [window]. *)
Definition off (type : string) (listener : fn) (useCapture : bool) : M unit :=
  effect (set_listeners (removeEventListener (type, listener, useCapture))).

End DOMEvent.

(** Modelled from the spec: util/debounce and [reAlignHints] of ./position
    are not among the sources; [debounce] wraps a callback in a new
    function object. The callback given to it is always
    [() => reAlignHints(hint)]. *)
Definition debounce (reAlignHints_of : loc) (wait : Value) : M fn :=
  fun w =>
    Return (length (closures w))
      (mkWorld (instances w) (arrays w) (markers w) (listeners w)
         (closures w ++ [Debounced reAlignHints_of wait])).

(** ** The class *)

Section HintClass.

Context `{Ext.Collaborators}.

(** The number a value converts to; [None] is NaN. *)
Definition ToNumber (v : Value) : option Z :=
  match v with
  | VUndefined => None
  | VNull => Some 0%Z
  | VBool b => Some (if b then 1 else 0)%Z
  | VNumber n => Some n
  | VString _ | VObject _ | VFunction _ => Ext.ToNumber_engine v
  end.

(** [v >= 0]: NaN compares false. *)
Definition ge_zero (v : Value) : bool :=
  match ToNumber v with
  | Some n => (0 <=? n)%Z
  | None => false
  end.

(** [new Hint(elementOrSelector, options)]. The field initialisers run
    first; [_options] has none, so [this._options] is still [undefined]
    where the constructor reads it. An options object is truthy, an
    omitted one is not. The instance enters the store when the constructor
    returns: if it throws, nothing refers to the object. *)
Definition constructor
    (elementOrSelector : option ElementOrSelector) (options : option Options)
  : M loc :=
  hints <- new_array [] ;;
  let callbacks : gmap string Value := ∅ in
  let this_options : option Options := None in
  let targetElement := Ext.getContainerElement elementOrSelector in
  opts <- match options with
          | Some partialOptions => OptionUtil.setOptions this_options partialOptions
          | None => ret (Some Ext.getDefaultHintOptions)
          end ;;
  fun w =>
    let this := fresh (dom (instances w)) in
    Return this
      (set_instances (insert this (mkHint hints targetElement opts callbacks None)) w).

(** [this.callbacks[callbackName]] is modelled on the own properties of
    the object: the names a plain object inherits from [Object.prototype]
    are outside the model. *)
Definition callback (this : loc) (callbackName : string) : M Value :=
  o <- read this ;;
  let callback := default VUndefined (callbacks o !! callbackName) in
  if isFunction callback then ret callback else ret VUndefined.

Definition getTargetElement (this : loc) : M HTMLElement :=
  o <- read this ;;
  ret (_targetElement o).

Definition getHints (this : loc) : M loc :=
  o <- read this ;;
  ret (_hints o).

Definition getHint (this : loc) (stepId : Z) : M (option HintItem) :=
  o <- read this ;;
  xs <- read_array (_hints o) ;;
  ret (array_get xs stepId).

Definition setHints (this : loc) (hints : loc) : M loc :=
  assign this (with_hints hints) ;;
  ret this.

Definition addHint (this : loc) (hint : HintItem) : M loc :=
  o <- read this ;;
  array_push (_hints o) hint ;;
  ret this.

(** [this._options[key]], on the own properties of the options object as
    for [callback]. *)
Definition getOption (this : loc) (key : string) : M Value :=
  o <- read this ;;
  match _options o with
  | Some options => ret (default VUndefined (options !! key))
  | None => throw (TypeError "Cannot read properties of undefined")
  end.

Definition setOptions (this : loc) (partialOptions : Options) : M loc :=
  o <- read this ;;
  options <- OptionUtil.setOptions (_options o) partialOptions ;;
  assign this (with_options options) ;;
  ret this.

Definition setOption (this : loc) (key : string) (value : Value) : M loc :=
  o <- read this ;;
  options <- OptionUtil.setOption (_options o) key value ;;
  assign this (with_options options) ;;
  ret this.

Definition isActive (this : loc) : M Value :=
  getOption this "isActive".

Definition render (this : loc) : M loc :=
  active <- isActive this ;;
  if negb (truthy active) then ret this
  else
    effect (Ext.fetchHintItems this) ;;
    effect (Ext.renderHints this) ;;
    ret this.

Definition addHints (this : loc) : M loc :=
  render this.

Definition hideHint (this : loc) (stepId : Z) : M loc :=
  effect (Ext.hideHint this stepId) ;;
  ret this.

Definition hideHints (this : loc) : M loc :=
  effect (Ext.hideHints this) ;;
  ret this.

Definition showHint (this : loc) (stepId : Z) : M loc :=
  effect (Ext.showHint stepId) ;;
  ret this.

Definition showHints (this : loc) : M loc :=
  effect (Ext.showHints this) ;;
  ret this.

Definition destroy (this : loc) : M loc :=
  Ext.removeHints this ;;
  ret this.

Definition removeHints (this : loc) : M loc :=
  destroy this ;;
  ret this.

Definition removeHint (this : loc) (stepId : Z) : M loc :=
  effect (Ext.removeHint stepId) ;;
  ret this.

Definition showHintDialog (this : loc) (stepId : Z) : M loc :=
  effect (Ext.showHintDialog this stepId) ;;
  ret this.

Definition enableHintAutoRefresh (this : loc) : M loc :=
  hintAutoRefreshInterval <- getOption this "hintAutoRefreshInterval" ;;
  (if ge_zero hintAutoRefreshInterval then
     f <- debounce this hintAutoRefreshInterval ;;
     assign this (with_autoRefresh (Some f)) ;;
     DOMEvent.on "scroll" f true ;;
     DOMEvent.on "resize" f true
   else ret tt) ;;
  ret this.

Definition disableHintAutoRefresh (this : loc) : M loc :=
  o <- read this ;;
  match _hintsAutoRefreshFunction o with
  | Some f =>
      DOMEvent.off "scroll" f true ;;
      DOMEvent.on "resize" f true ;;
      assign this (with_autoRefresh None)
  | None => ret tt
  end ;;
  ret this.

Definition clone (this : loc) : M loc :=
  o <- read this ;;
  constructor (Some (Element (_targetElement o))) (_options o).

Definition onHintsAdded (this : loc) (providedCallback : Value) : M loc :=
  (if negb (isFunction providedCallback) then
     throw (Error "Provided callback for onhintsadded was not a function.")
   else ret tt) ;;
  assign this (fun o =>
    with_callbacks (<["hintsAdded" := providedCallback]> (callbacks o)) o) ;;
  ret this.

Definition onhintsadded (this : loc) (providedCallback : Value) : M unit :=
  onHintsAdded this providedCallback ;;
  ret tt.

Definition onHintClick (this : loc) (providedCallback : Value) : M loc :=
  (if negb (isFunction providedCallback) then
     throw (Error "Provided callback for onhintclick was not a function.")
   else ret tt) ;;
  assign this (fun o =>
    with_callbacks (<["hintClick" := providedCallback]> (callbacks o)) o) ;;
  ret this.

Definition onhintclick (this : loc) (providedCallback : Value) : M unit :=
  onHintClick this providedCallback ;;
  ret tt.

Definition onHintClose (this : loc) (providedCallback : Value) : M loc :=
  (if isFunction providedCallback then
     assign this (fun o =>
       with_callbacks (<["hintClose" := providedCallback]> (callbacks o)) o)
   else
     throw (Error "Provided callback for onhintclose was not a function.")) ;;
  ret this.

Definition onhintclose (this : loc) (providedCallback : Value) : M unit :=
  onHintClose this providedCallback ;;
  ret tt.

(** A sequence of [addHint] calls. *)
Fixpoint addHint_each (this : loc) (hints : list HintItem) : M loc :=
  match hints with
  | [] => ret this
  | hint :: rest => addHint this hint ;; addHint_each this rest
  end.

End HintClass.

(** ** A sample page *)

(** Collaborators with visible effects, for running the class on concrete
    stores. *)
Definition sample_item (n : Z) : HintItem :=
  mkHintItem "#target" "text" "top-middle" (Some n).

Definition sample_defaults : Options :=
  <["isActive" := VBool true]>
    (<["hintAutoRefreshInterval" := VNumber 10]>
       (<["hintPosition" := VString "top-middle"]> ∅)).

Definition sample_page : Ext.Collaborators := {|
  Ext.getDefaultHintOptions := sample_defaults;
  Ext.getContainerElement e :=
    match e with
    | Some (Element el) => el
    | _ => 0
    end;
  Ext.fetchHintItems this w :=
    match instances w !! this with
    | Some o => set_arrays (alter (fun xs => xs ++ [sample_item 7]) (_hints o)) w
    | None => w
    end;
  Ext.renderHints this := set_markers (fun ms => ms ++ [0%Z]);
  Ext.hideHint this stepId := set_markers (filter (fun m => m ≠ stepId));
  Ext.hideHints this := set_markers (fun _ => []);
  Ext.showHint stepId := set_markers (fun ms => ms ++ [stepId]);
  Ext.showHints this := set_markers (fun ms => ms ++ [0%Z]);
  Ext.removeHint stepId := set_markers (filter (fun m => m ≠ stepId));
  Ext.showHintDialog this stepId := set_markers (fun ms => ms ++ [stepId]);
  Ext.ToNumber_engine _ := None;
|}.

(** The same page with an empty table of defaults. *)
Definition bare_page : Ext.Collaborators := {|
  Ext.getDefaultHintOptions := ∅;
  Ext.getContainerElement := Ext.getContainerElement (Collaborators := sample_page);
  Ext.fetchHintItems := Ext.fetchHintItems (Collaborators := sample_page);
  Ext.renderHints := Ext.renderHints (Collaborators := sample_page);
  Ext.hideHint := Ext.hideHint (Collaborators := sample_page);
  Ext.hideHints := Ext.hideHints (Collaborators := sample_page);
  Ext.showHint := Ext.showHint (Collaborators := sample_page);
  Ext.showHints := Ext.showHints (Collaborators := sample_page);
  Ext.removeHint := Ext.removeHint (Collaborators := sample_page);
  Ext.showHintDialog := Ext.showHintDialog (Collaborators := sample_page);
  Ext.ToNumber_engine := Ext.ToNumber_engine (Collaborators := sample_page);
|}.

(** The store a call leaves behind. *)
Definition world_after {A} (r : Outcome A) : World :=
  match r with
  | Return _ w => w
  | Throw _ w => w
  end.

(** [new Hint()] on an empty page: the instance is object 0, its fields
    are [fresh_hint]. *)
Definition fresh_page : World :=
  world_after (constructor (H := sample_page) None None empty_world).

Definition fresh_hint : Hint :=
  mkHint 0 0 (Some sample_defaults) ∅ None.

(** ... then [render()], which fetches an item and draws a marker. *)
Definition rendered_page : World :=
  world_after (render (H := sample_page) 0 fresh_page).

(** ... and then [setOption("isActive", false)]. *)
Definition inactive_page : World :=
  world_after (setOption 0 "isActive" (VBool false) rendered_page).

Definition inactive_options : Options :=
  <["isActive" := VBool false]> sample_defaults.

(** [new Hint()], then [setHints] with an array holding one item. *)
Definition preset_page : World :=
  let w := world_after (new_array [sample_item 1] fresh_page) in
  world_after (setHints 0 1 w).

(** [new Hint()] on a page whose table of defaults is empty: no option
    key is set on the instance. *)
Definition bare_fresh_page : World :=
  world_after (constructor (H := bare_page) None None empty_world).

Definition bare_hint : Hint :=
  mkHint 0 0 (Some ∅) ∅ None.

(** [new Hint()] twice on the sample page, and an array of one item that
    belongs to neither instance. *)
Definition two_hints_page : World :=
  let w := world_after (constructor (H := sample_page) None None fresh_page) in
  world_after (new_array [sample_item 1] w).

(** ** Relating two stores *)

(** Every instance of the first store is still an instance of the second,
    with the same target element. *)
Definition targets_kept (w w' : World) : Prop :=
  forall (t : loc) (o : Hint),
    instances w !! t = Some o ->
    exists o', instances w' !! t = Some o' /\ _targetElement o' = _targetElement o.

(** A computation that keeps the target elements, whatever the store it
    starts from and whether it returns or throws. *)
Definition keeps_targets {A} (m : M A) : Prop :=
  forall w, targets_kept w (world_after (m w)).

(** * Properties *)

(** ** Running the monad *)

Lemma read_live (this : loc) (o : Hint) (w : World) :
  instances w !! this = Some o -> read this w = Return o w.
Proof. intros Hlive. unfold read. now rewrite Hlive. Qed.

Lemma read_array_live (a : loc) (xs : list HintItem) (w : World) :
  arrays w !! a = Some xs -> read_array a w = Return xs w.
Proof. intros Ha. unfold read_array. now rewrite Ha. Qed.

Lemma assign_live (this : loc) (o : Hint) (f : Hint -> Hint) (w : World) :
  instances w !! this = Some o ->
  assign this f w = Return tt (set_instances (insert this (f o)) w).
Proof. intros Hlive. unfold assign, bind. now rewrite (read_live _ _ _ Hlive). Qed.

Lemma bind_return {A B} (m : M A) (k : A -> M B) (a : A) (w w' : World) :
  m w = Return a w' -> bind m k w = k a w'.
Proof. intros Hm. unfold bind. now rewrite Hm. Qed.

Lemma bind_throw {A B} (m : M A) (k : A -> M B) (e : Exception) (w w' : World) :
  m w = Throw e w' -> bind m k w = Throw e w'.
Proof. intros Hm. unfold bind. now rewrite Hm. Qed.

Lemma set_arrays_compose f g (w : World) :
  set_arrays f (set_arrays g w) = set_arrays (fun m => f (g m)) w.
Proof. reflexivity. Qed.

(** ** Reading the list *)

Lemma getHints_live (this : loc) (o : Hint) (w : World) :
  instances w !! this = Some o -> getHints this w = Return (_hints o) w.
Proof.
  intros Hlive. unfold getHints.
  now rewrite (bind_return _ _ _ _ _ (read_live _ _ _ Hlive)).
Qed.

Lemma getHint_live (this : loc) (o : Hint) (hs : list HintItem) (stepId : Z) (w : World) :
  instances w !! this = Some o ->
  arrays w !! _hints o = Some hs ->
  getHint this stepId w = Return (array_get hs stepId) w.
Proof.
  intros Hlive Harr. unfold getHint.
  rewrite (bind_return _ _ _ _ _ (read_live _ _ _ Hlive)).
  now rewrite (bind_return _ _ _ _ _ (read_array_live _ _ _ Harr)).
Qed.

Lemma array_get_nat {A} (xs : list A) (i : nat) :
  array_get xs (Z.of_nat i) = xs !! i.
Proof.
  unfold array_get. destruct (decide (0 <= Z.of_nat i)%Z) as [_ | Hneg]; [| lia].
  now rewrite Nat2Z.id.
Qed.

Lemma array_get_outside {A} (xs : list A) (i : Z) :
  (i < 0 \/ Z.of_nat (length xs) <= i)%Z -> array_get xs i = None.
Proof.
  intros Hout. unfold array_get.
  destruct (decide (0 <= i)%Z) as [Hpos | Hneg]; [| reflexivity].
  apply lookup_ge_None. lia.
Qed.

(** ** Appending *)

Lemma addHint_live (this : loc) (o : Hint) (hs : list HintItem) (x : HintItem) (w : World) :
  instances w !! this = Some o ->
  arrays w !! _hints o = Some hs ->
  addHint this x w = Return this (set_arrays (insert (_hints o) (hs ++ [x])) w).
Proof.
  intros Hlive Harr. unfold addHint, array_push.
  rewrite (bind_return _ _ _ _ _ (read_live _ _ _ Hlive)).
  unfold bind at 1. unfold bind at 1.
  now rewrite (read_array_live _ _ _ Harr).
Qed.

Lemma addHint_each_live (this : loc) (o : Hint) (xs hs : list HintItem) (w : World) :
  instances w !! this = Some o ->
  arrays w !! _hints o = Some hs ->
  addHint_each this xs w = Return this (set_arrays (insert (_hints o) (hs ++ xs)) w).
Proof.
  revert hs w. induction xs as [| x xs IH]; intros hs w Hlive Harr.
  - simpl. unfold ret. f_equal. destruct w as [ins arr ms ls cs]. unfold set_arrays. simpl in *.
    f_equal. rewrite app_nil_r. symmetry. now apply insert_id.
  - simpl. rewrite (bind_return _ _ _ _ _ (addHint_live _ _ _ _ _ Hlive Harr)).
    rewrite (IH (hs ++ [x])).
    + rewrite set_arrays_compose. f_equal. destruct w as [ins arr ms ls cs].
      unfold set_arrays. simpl. f_equal. rewrite insert_insert_eq.
      now rewrite <- app_assoc.
    + exact Hlive.
    + simpl. apply lookup_insert_eq.
Qed.

(** ** The callback registrars *)

Lemma isFunction_false (v : Value) :
  (forall f, v <> VFunction f) -> isFunction v = false.
Proof. intros Hv. destruct v; try reflexivity. now destruct (Hv f). Qed.

Lemma callback_live (this : loc) (o : Hint) (name : string) (f : fn) (w : World) :
  instances w !! this = Some o ->
  callbacks o !! name = Some (VFunction f) ->
  callback this name w = Return (VFunction f) w.
Proof.
  intros Hlive Hcb. unfold callback.
  rewrite (bind_return _ _ _ _ _ (read_live _ _ _ Hlive)).
  now rewrite Hcb.
Qed.

(** C1. Given a value that is not a function, [onHintsAdded],
    [onHintClick] and [onHintClose] each throw their error at once and
    leave the store, and so the registered callbacks, as they were. Given
    a function, each stores it under its callback name on the instance and
    returns the instance; [callback] then reads it back. *)
Theorem registrars_check_callback (this : loc) (o : Hint) (w : World) (v : Value) :
  instances w !! this = Some o ->
  ((forall f, v <> VFunction f) ->
     onHintsAdded this v w
       = Throw (Error "Provided callback for onhintsadded was not a function.") w
     /\ onHintClick this v w
       = Throw (Error "Provided callback for onhintclick was not a function.") w
     /\ onHintClose this v w
       = Throw (Error "Provided callback for onhintclose was not a function.") w)
  /\ (forall f, v = VFunction f ->
        let stored name :=
          set_instances (insert this (with_callbacks (<[name := v]> (callbacks o)) o)) w in
        (onHintsAdded this v w = Return this (stored "hintsAdded")
         /\ callback this "hintsAdded" (stored "hintsAdded") = Return v (stored "hintsAdded"))
        /\ (onHintClick this v w = Return this (stored "hintClick")
            /\ callback this "hintClick" (stored "hintClick") = Return v (stored "hintClick"))
        /\ (onHintClose this v w = Return this (stored "hintClose")
            /\ callback this "hintClose" (stored "hintClose") = Return v (stored "hintClose"))).
Proof.
  intros Hlive. split.
  - intros Hv. apply isFunction_false in Hv.
    unfold onHintsAdded, onHintClick, onHintClose, bind, throw.
    rewrite Hv. simpl. repeat split; reflexivity.
  - intros f -> stored.
    assert (Hread : forall name,
      callback this name (stored name) = Return (VFunction f) (stored name)).
    { intros name. eapply callback_live.
      - unfold stored. simpl. apply lookup_insert_eq.
      - simpl. apply lookup_insert_eq. }
    unfold onHintsAdded, onHintClick, onHintClose. simpl.
    repeat split; try apply Hread.
    + unfold bind at 1. unfold ret at 1. unfold bind at 1.
      now rewrite (assign_live _ _ _ _ Hlive).
    + unfold bind at 1. unfold ret at 1. unfold bind at 1.
      now rewrite (assign_live _ _ _ _ Hlive).
    + unfold bind at 1. now rewrite (assign_live _ _ _ _ Hlive).
Qed.

(** ** The list of hint items *)

(** C2, as amended. A sequence of [addHint] calls on an instance whose
    list holds [hs] leaves the list holding [hs] followed by the added
    items in the order of the calls, and changes nothing else. The items
    held before stay at their indices, and the i-th added item is read by
    [getHint] at index [length hs + i]: at index [i] on an instance whose
    list was empty, such as a newly constructed one. *)
Theorem addHint_appends
    (this : loc) (o : Hint) (w : World) (hs xs : list HintItem) :
  instances w !! this = Some o ->
  arrays w !! _hints o = Some hs ->
  let w' := set_arrays (insert (_hints o) (hs ++ xs)) w in
  addHint_each this xs w = Return this w'
  /\ (forall i, i < length xs ->
        getHint this (Z.of_nat (length hs + i)) w' = Return (xs !! i) w')
  /\ (forall j, j < length hs ->
        getHint this (Z.of_nat j) w' = Return (hs !! j) w')
  /\ (hs = [] -> forall i, i < length xs ->
        getHint this (Z.of_nat i) w' = Return (xs !! i) w').
Proof.
  intros Hlive Harr w'.
  assert (Hget : forall k,
    getHint this (Z.of_nat k) w' = Return ((hs ++ xs) !! k) w').
  { intros k. rewrite <- array_get_nat. apply (getHint_live this o).
    - exact Hlive.
    - unfold w'. simpl. apply lookup_insert_eq. }
  split; [now apply addHint_each_live |].
  split; [| split].
  - intros i Hi. rewrite Hget. f_equal. rewrite lookup_app_r by lia.
    f_equal. lia.
  - intros j Hj. rewrite Hget. f_equal. now apply lookup_app_l.
  - intros -> i Hi. rewrite Hget. reflexivity.
Qed.

Lemma setHints_live (this : loc) (o : Hint) (hints : loc) (w : World) :
  instances w !! this = Some o ->
  setHints this hints w = Return this (set_instances (insert this (with_hints hints o)) w).
Proof.
  intros Hlive. unfold setHints. unfold bind at 1.
  now rewrite (assign_live _ _ _ _ Hlive).
Qed.

(** C3. [setHints(hints)] makes the given array the list of the instance,
    whatever the list was before, and returns the instance: [getHints]
    then returns that very array, no array has changed, and [getHint]
    reads the items of the given array. *)
Theorem setHints_replaces (this : loc) (o : Hint) (w : World) (hints : loc) :
  instances w !! this = Some o ->
  let w' := set_instances (insert this (with_hints hints o)) w in
  setHints this hints w = Return this w'
  /\ getHints this w' = Return hints w'
  /\ arrays w' = arrays w
  /\ (forall hs, arrays w !! hints = Some hs ->
        forall stepId, getHint this stepId w' = Return (array_get hs stepId) w').
Proof.
  intros Hlive w'.
  assert (Hlive' : instances w' !! this = Some (with_hints hints o)).
  { unfold w'. simpl. apply lookup_insert_eq. }
  split; [| split; [| split]].
  - now apply setHints_live.
  - apply (getHints_live _ _ _ Hlive').
  - reflexivity.
  - intros hs Hhs stepId. apply (getHint_live _ _ _ _ _ Hlive'). exact Hhs.
Qed.

(** C6. For a step ID outside the list, negative or not below its length,
    [getHint] returns [undefined]: it does not throw and the store is as
    it was. *)
Theorem getHint_absent
    (this : loc) (o : Hint) (w : World) (hs : list HintItem) (stepId : Z) :
  instances w !! this = Some o ->
  arrays w !! _hints o = Some hs ->
  (stepId < 0 \/ Z.of_nat (length hs) <= stepId)%Z ->
  getHint this stepId w = Return None w.
Proof.
  intros Hlive Harr Hout.
  rewrite (getHint_live _ _ _ _ _ Hlive Harr).
  now rewrite (array_get_outside _ _ Hout).
Qed.

Section WithCollaborators.

Context `{Ext.Collaborators}.

(** ** Options *)

Lemma getOption_live (this : loc) (o : Hint) (opts : Options) (key : string) (w : World) :
  instances w !! this = Some o ->
  _options o = Some opts ->
  getOption this key w = Return (default VUndefined (opts !! key)) w.
Proof.
  intros Hlive Hopts. unfold getOption.
  rewrite (bind_return _ _ _ _ _ (read_live _ _ _ Hlive)).
  now rewrite Hopts.
Qed.

Lemma getOption_unassigned (this : loc) (o : Hint) (key : string) (w : World) :
  instances w !! this = Some o ->
  _options o = None ->
  getOption this key w = Throw (TypeError "Cannot read properties of undefined") w.
Proof.
  intros Hlive Hopts. unfold getOption.
  rewrite (bind_return _ _ _ _ _ (read_live _ _ _ Hlive)).
  now rewrite Hopts.
Qed.

(** ** Rendering and removing *)

(** C4. On an instance whose [isActive] option is [false], [render()]
    returns the instance and the store is as it was: nothing is fetched,
    nothing is rendered, whatever the collaborators would do. *)
Theorem render_inactive (this : loc) (o : Hint) (opts : Options) (w : World) :
  instances w !! this = Some o ->
  _options o = Some opts ->
  opts !! "isActive" = Some (VBool false) ->
  render this w = Return this w.
Proof.
  intros Hlive Hopts Hactive. unfold render, isActive.
  rewrite (bind_return _ _ _ _ _ (getOption_live _ _ _ _ _ Hlive Hopts)).
  now rewrite Hactive.
Qed.

(** C5. [destroy()] returns the instance and leaves no rendered hint
    marker, whatever was rendered before, while the instances and the
    arrays are as they were: [getHints] returns the same array and
    [getHint] the same item at every step ID, before and after. *)
Theorem destroy_keeps_list
    (this : loc) (o : Hint) (w : World) (hs : list HintItem) :
  instances w !! this = Some o ->
  arrays w !! _hints o = Some hs ->
  let w' := set_markers (fun _ => []) w in
  destroy this w = Return this w'
  /\ markers w' = []
  /\ instances w' = instances w
  /\ arrays w' = arrays w
  /\ (getHints this w = Return (_hints o) w /\ getHints this w' = Return (_hints o) w')
  /\ (forall stepId,
        getHint this stepId w = Return (array_get hs stepId) w
        /\ getHint this stepId w' = Return (array_get hs stepId) w').
Proof.
  intros Hlive Harr w'.
  assert (Hlive' : instances w' !! this = Some o) by exact Hlive.
  assert (Harr' : arrays w' !! _hints o = Some hs) by exact Harr.
  repeat split.
  - apply (getHints_live _ _ _ Hlive).
  - apply (getHints_live _ _ _ Hlive').
  - apply (getHint_live _ _ _ _ _ Hlive Harr).
  - apply (getHint_live _ _ _ _ _ Hlive' Harr').
Qed.


(** ** Auto refresh *)

Lemma addEventListener_elem (l : Listener) (ls : list Listener) :
  l ∈ addEventListener l ls.
Proof.
  unfold addEventListener. destruct (decide (l ∈ ls)) as [Hin | Hout]; [exact Hin |].
  apply elem_of_app. right. apply list_elem_of_singleton. reflexivity.
Qed.

Lemma addEventListener_keeps (l l' : Listener) (ls : list Listener) :
  l' ∈ ls -> l' ∈ addEventListener l ls.
Proof.
  intros Hin. unfold addEventListener. destruct (decide (l ∈ ls)); [exact Hin |].
  apply elem_of_app. now left.
Qed.

Lemma addEventListener_other (l l' : Listener) (ls : list Listener) :
  l' <> l -> l' ∉ ls -> l' ∉ addEventListener l ls.
Proof.
  intros Hne Hout. unfold addEventListener. destruct (decide (l ∈ ls)); [exact Hout |].
  intros Hin. apply elem_of_app in Hin as [Hin | Hin]; [now apply Hout |].
  apply list_elem_of_singleton in Hin. now apply Hne.
Qed.

Lemma removeEventListener_gone (l : Listener) (ls : list Listener) :
  l ∉ removeEventListener l ls.
Proof.
  unfold removeEventListener. intros Hin.
  apply list_elem_of_filter in Hin as [Hne _]. now apply Hne.
Qed.

Lemma removeEventListener_keeps (l l' : Listener) (ls : list Listener) :
  l' <> l -> l' ∈ ls -> l' ∈ removeEventListener l ls.
Proof.
  intros Hne Hin. unfold removeEventListener. apply list_elem_of_filter. now split.
Qed.

(** C8, on the code. When the [hintAutoRefreshInterval] option is a number
    that is not negative, [enableHintAutoRefresh()] registers a new
    debounced function for both "scroll" and "resize".
    [disableHintAutoRefresh()] then removes the "scroll" listener and
    clears the stored function, but calls [DOMEvent.on] for "resize": the
    "resize" listener is still registered afterwards. *)
Theorem disableHintAutoRefresh_leaves_resize
    (this : loc) (o : Hint) (opts : Options) (n : Z) (w : World) :
  instances w !! this = Some o ->
  _options o = Some opts ->
  opts !! "hintAutoRefreshInterval" = Some (VNumber n) ->
  (0 <= n)%Z ->
  let f := length (closures w) in
  exists w1 w2,
    enableHintAutoRefresh this w = Return this w1
    /\ instances w1 !! this = Some (with_autoRefresh (Some f) o)
    /\ ("scroll", f, true) ∈ listeners w1
    /\ ("resize", f, true) ∈ listeners w1
    /\ disableHintAutoRefresh this w1 = Return this w2
    /\ instances w2 !! this = Some (with_autoRefresh None o)
    /\ (("scroll", f, true) ∉ listeners w2)
    /\ ("resize", f, true) ∈ listeners w2.
Proof.
  intros Hlive Hopts Hkey Hn f.
  assert (Hge : ge_zero (VNumber n) = true).
  { unfold ge_zero. simpl. now apply Z.leb_le. }
  unfold enableHintAutoRefresh.
  rewrite (bind_return _ _ _ _ _ (getOption_live _ _ _ _ _ Hlive Hopts)).
  rewrite Hkey. simpl default. rewrite Hge.
  unfold bind at 1. unfold bind at 1. unfold debounce at 1.
  unfold bind at 1. unfold assign at 1. unfold bind at 1. unfold read at 1.
  simpl instances. rewrite Hlive. simpl.
  eexists. eexists. split; [reflexivity |]. simpl.
  split; [apply lookup_insert_eq |].
  split; [apply addEventListener_keeps, addEventListener_elem |].
  split; [apply addEventListener_elem |].
  unfold disableHintAutoRefresh, bind, read. simpl.
  rewrite lookup_insert_eq. simpl.
  unfold assign, bind, read. simpl. rewrite lookup_insert_eq. simpl.
  split; [reflexivity |]. simpl.
  split; [rewrite insert_insert_eq; apply lookup_insert_eq |].
  split.
  - apply addEventListener_other; [discriminate | apply removeEventListener_gone].
  - apply addEventListener_elem.
Qed.

End WithCollaborators.

(** ** Merging options *)

Lemma setOptions_defined (o partialOptions : Options) (w : World) :
  OptionUtil.setOptions (Some o) partialOptions w
  = Return (Some (partialOptions ∪ o)) w.
Proof.
  unfold OptionUtil.setOptions.
  rewrite <- (list_to_map_to_list partialOptions) at 2.
  induction (map_to_list partialOptions) as [| [key value] entries IH]; simpl.
  - unfold ret. now rewrite (left_id_L ∅ (∪)).
  - rewrite (bind_return _ _ _ _ _ IH). simpl. unfold ret.
    now rewrite insert_union_l.
Qed.

Lemma setOptions_undefined (partialOptions : Options) (w : World) :
  partialOptions <> ∅ ->
  OptionUtil.setOptions None partialOptions w
  = Throw (TypeError "Cannot set properties of undefined") w.
Proof.
  intros Hne. unfold OptionUtil.setOptions.
  assert (Hentries : map_to_list partialOptions <> []).
  { intros Hnil. now apply map_to_list_empty_iff in Hnil. }
  induction (map_to_list partialOptions) as [| [key value] entries IH];
    [now destruct Hentries |].
  simpl. destruct entries as [| entry entries'].
  - reflexivity.
  - apply bind_throw. now apply IH.
Qed.

Lemma setOptions_undefined_empty (w : World) :
  OptionUtil.setOptions None ∅ w = Return None w.
Proof. unfold OptionUtil.setOptions. now rewrite map_to_list_empty. Qed.

(** ** Construction *)

Lemma constructor_options_undefined
    (C : Ext.Collaborators) (elementOrSelector : option ElementOrSelector)
    (partialOptions : Options) (w : World) :
  partialOptions <> ∅ ->
  constructor elementOrSelector (Some partialOptions) w
  = Throw (TypeError "Cannot set properties of undefined")
      (set_arrays (insert (fresh (dom (arrays w))) []) w).
Proof.
  intros Hne. unfold constructor, new_array. unfold bind at 1.
  apply bind_throw. now apply setOptions_undefined.
Qed.

Lemma constructor_without_options
    (C : Ext.Collaborators) (elementOrSelector : option ElementOrSelector) (w : World) :
  let hints := fresh (dom (arrays w)) in
  let this := fresh (dom (instances w)) in
  constructor elementOrSelector None w
  = Return this
      (set_instances
         (insert this
            (mkHint hints (Ext.getContainerElement elementOrSelector)
               (Some Ext.getDefaultHintOptions) ∅ None))
         (set_arrays (insert hints []) w)).
Proof. reflexivity. Qed.

Lemma setOptions_live
    (this : loc) (o : Hint) (opts partialOptions : Options) (w : World) :
  instances w !! this = Some o ->
  _options o = Some opts ->
  setOptions this partialOptions w
  = Return this
      (set_instances (insert this (with_options (Some (partialOptions ∪ opts)) o)) w).
Proof.
  intros Hlive Hopts. unfold setOptions.
  rewrite (bind_return _ _ _ _ _ (read_live _ _ _ Hlive)).
  rewrite Hopts. rewrite (bind_return _ _ _ _ _ (setOptions_defined _ _ _)).
  unfold bind at 1. now rewrite (assign_live _ _ _ _ Hlive).
Qed.

(** C9, on the code. The constructor merges the given options onto
    [this._options], which is not assigned yet, and never onto the
    defaults: the outcome is the same for every table of defaults. With
    at least one key in the options the merge raises [TypeError] and no
    instance is made; with none, the instance is made with [_options]
    still [undefined], and [getOption] on it raises [TypeError] for every
    key. *)
Theorem constructor_options_skip_defaults
    (C : Ext.Collaborators) (elementOrSelector : option ElementOrSelector)
    (partialOptions : Options) (w : World) :
  (forall C' : Ext.Collaborators,
     Ext.getContainerElement (Collaborators := C') elementOrSelector
       = Ext.getContainerElement (Collaborators := C) elementOrSelector ->
     constructor (H := C') elementOrSelector (Some partialOptions) w
       = constructor (H := C) elementOrSelector (Some partialOptions) w)
  /\ (partialOptions <> ∅ ->
      exists w',
        constructor elementOrSelector (Some partialOptions) w
          = Throw (TypeError "Cannot set properties of undefined") w'
        /\ instances w' = instances w)
  /\ (partialOptions = ∅ ->
      exists this w' o,
        constructor elementOrSelector (Some partialOptions) w = Return this w'
        /\ instances w' !! this = Some o
        /\ _options o = None
        /\ forall key,
             getOption this key w'
               = Throw (TypeError "Cannot read properties of undefined") w').
Proof.
  split; [| split].
  - intros C' Hsame. unfold constructor. now rewrite Hsame.
  - intros Hne. eexists. split.
    + now apply constructor_options_undefined.
    + reflexivity.
  - intros ->. unfold constructor, new_array. unfold bind at 1.
    rewrite (bind_return _ _ _ _ _ (setOptions_undefined_empty _)).
    do 3 eexists. split; [reflexivity |].
    split; [simpl; apply lookup_insert_eq |].
    split; [reflexivity |].
    intros key. eapply getOption_unassigned.
    + simpl. apply lookup_insert_eq.
    + reflexivity.
Qed.

(** * The properties on the sample page *)

(** C1 on [new Hint()]: [onHintsAdded(3)] throws, [onHintClose] of a
    function stores it. *)
Lemma registrars_check_callback_witness :
  instances fresh_page !! 0 = Some fresh_hint
  /\ onHintsAdded 0 (VNumber 3) fresh_page
     = Throw (Error "Provided callback for onhintsadded was not a function.") fresh_page
  /\ onHintClose 0 (VFunction 5) fresh_page
     = Return 0
         (set_instances
            (insert 0 (with_callbacks (<["hintClose" := VFunction 5]> (callbacks fresh_hint))
                         fresh_hint))
            fresh_page).
Proof.
  assert (Hlive : instances fresh_page !! 0 = Some fresh_hint) by (vm_compute; reflexivity).
  split; [exact Hlive |]. split.
  - destruct (registrars_check_callback 0 fresh_hint fresh_page (VNumber 3) Hlive)
      as [Hthrow _].
    apply Hthrow. discriminate.
  - destruct (registrars_check_callback 0 fresh_hint fresh_page (VFunction 5) Hlive)
      as [_ Hstore].
    apply (Hstore 5 eq_refl).
Defined.

(** C2, as stated, fails on an instance whose list is not empty: after
    [setHints([item 1])], one call [addHint(item 2)] is a sequence of one
    added item, and [getHint(0)] returns item 1, not the item added. *)
Lemma addHint_getHint_counterexample :
  let w' := set_arrays (insert 1 [sample_item 1; sample_item 2]) preset_page in
  addHint_each 0 [sample_item 2] preset_page = Return 0 w'
  /\ 0 < length [sample_item 2]
  /\ getHint 0 0 w' = Return (Some (sample_item 1)) w'
  /\ [sample_item 2] !! 0 <> Some (sample_item 1).
Proof.
  split; [vm_compute; reflexivity |].
  split; [simpl; lia |].
  split; [vm_compute; reflexivity |].
  discriminate.
Qed.

(** C2 as amended, on the same instance: the added item is read at index
    1, after the item held before. *)
Lemma addHint_appends_witness :
  instances preset_page !! 0 = Some (with_hints 1 fresh_hint)
  /\ arrays preset_page !! 1 = Some [sample_item 1]
  /\ addHint_each 0 [sample_item 2] preset_page
     = Return 0 (set_arrays (insert 1 ([sample_item 1] ++ [sample_item 2])) preset_page)
  /\ getHint 0 1 (set_arrays (insert 1 ([sample_item 1] ++ [sample_item 2])) preset_page)
     = Return (Some (sample_item 2))
         (set_arrays (insert 1 ([sample_item 1] ++ [sample_item 2])) preset_page).
Proof.
  assert (Hlive : instances preset_page !! 0 = Some (with_hints 1 fresh_hint))
    by (vm_compute; reflexivity).
  assert (Harr : arrays preset_page !! _hints (with_hints 1 fresh_hint) = Some [sample_item 1])
    by (vm_compute; reflexivity).
  split; [exact Hlive |]. split; [exact Harr |].
  destruct (addHint_appends 0 _ preset_page [sample_item 1] [sample_item 2] Hlive Harr)
    as (Hrun & Hadded & _ & _).
  split; [exact Hrun |].
  apply (Hadded 0). simpl. lia.
Defined.

(** C3 on the rendered page: [setHints] with a new array of one item. *)
Lemma setHints_replaces_witness :
  let w := world_after (new_array [sample_item 1] rendered_page) in
  let w' := set_instances (insert 0 (with_hints 1 fresh_hint)) w in
  instances w !! 0 = Some fresh_hint
  /\ setHints 0 1 w = Return 0 w'
  /\ getHints 0 w' = Return 1 w'
  /\ getHint 0 0 w' = Return (Some (sample_item 1)) w'.
Proof.
  intros w w'.
  assert (Hlive : instances w !! 0 = Some fresh_hint) by (vm_compute; reflexivity).
  split; [exact Hlive |].
  destruct (setHints_replaces 0 fresh_hint w 1 Hlive) as (Hset & Hget & _ & Hitems).
  split; [exact Hset |]. split; [exact Hget |].
  apply (Hitems [sample_item 1]). vm_compute; reflexivity.
Defined.

(** C6 on the rendered page, whose list holds one item. *)
Lemma getHint_absent_witness :
  instances rendered_page !! 0 = Some fresh_hint
  /\ arrays rendered_page !! 0 = Some [sample_item 7]
  /\ getHint 0 1 rendered_page = Return None rendered_page
  /\ getHint 0 (-1) rendered_page = Return None rendered_page.
Proof.
  assert (Hlive : instances rendered_page !! 0 = Some fresh_hint) by (vm_compute; reflexivity).
  assert (Harr : arrays rendered_page !! _hints fresh_hint = Some [sample_item 7])
    by (vm_compute; reflexivity).
  split; [exact Hlive |]. split; [exact Harr |]. split.
  - apply (getHint_absent 0 fresh_hint rendered_page [sample_item 7] 1 Hlive Harr).
    right. simpl. lia.
  - apply (getHint_absent 0 fresh_hint rendered_page [sample_item 7] (-1) Hlive Harr).
    left. lia.
Defined.

(** C4 on the inactive page, with collaborators that would fetch an item
    and draw a marker. *)
Lemma render_inactive_witness :
  instances inactive_page !! 0 = Some (with_options (Some inactive_options) fresh_hint)
  /\ inactive_options !! "isActive" = Some (VBool false)
  /\ render (H := sample_page) 0 inactive_page = Return 0 inactive_page.
Proof.
  assert (Hlive : instances inactive_page !! 0
                  = Some (with_options (Some inactive_options) fresh_hint))
    by (vm_compute; reflexivity).
  assert (Hkey : inactive_options !! "isActive" = Some (VBool false))
    by (vm_compute; reflexivity).
  split; [exact Hlive |]. split; [exact Hkey |].
  exact (render_inactive (H := sample_page) 0 _ inactive_options inactive_page
           Hlive eq_refl Hkey).
Defined.

(** C5 on the rendered page: the marker goes, the item stays. *)
Lemma destroy_keeps_list_witness :
  markers rendered_page = [0%Z]
  /\ destroy 0 rendered_page = Return 0 (set_markers (fun _ => []) rendered_page)
  /\ getHint 0 0 rendered_page = Return (Some (sample_item 7)) rendered_page
  /\ getHint 0 0 (set_markers (fun _ => []) rendered_page)
     = Return (Some (sample_item 7)) (set_markers (fun _ => []) rendered_page).
Proof.
  assert (Hlive : instances rendered_page !! 0 = Some fresh_hint) by (vm_compute; reflexivity).
  assert (Harr : arrays rendered_page !! _hints fresh_hint = Some [sample_item 7])
    by (vm_compute; reflexivity).
  destruct (destroy_keeps_list 0 fresh_hint rendered_page [sample_item 7] Hlive Harr)
    as (Hrun & _ & _ & _ & _ & Hitems).
  split; [vm_compute; reflexivity |]. split; [exact Hrun |].
  exact (Hitems 0%Z).
Defined.



(** C8 on [new Hint()], whose refresh interval is 10: after enabling and
    disabling, the "resize" listener is still there. *)
Lemma disableHintAutoRefresh_leaves_resize_witness :
  instances fresh_page !! 0 = Some fresh_hint
  /\ sample_defaults !! "hintAutoRefreshInterval" = Some (VNumber 10)
  /\ exists w1 w2,
       enableHintAutoRefresh (H := sample_page) 0 fresh_page = Return 0 w1
       /\ disableHintAutoRefresh 0 w1 = Return 0 w2
       /\ ("resize", 0, true) ∈ listeners w2.
Proof.
  assert (Hlive : instances fresh_page !! 0 = Some fresh_hint) by (vm_compute; reflexivity).
  assert (Hkey : sample_defaults !! "hintAutoRefreshInterval" = Some (VNumber 10))
    by (vm_compute; reflexivity).
  split; [exact Hlive |]. split; [exact Hkey |].
  destruct (disableHintAutoRefresh_leaves_resize (H := sample_page) 0 fresh_hint
              sample_defaults 10 fresh_page Hlive eq_refl Hkey)
    as (w1 & w2 & Hon & _ & _ & _ & Hoff & _ & _ & Hresize).
  - lia.
  - exists w1, w2. split; [exact Hon |]. split; [exact Hoff | exact Hresize].
Defined.

(** C9 on [new Hint(undefined, { isActive: false })], which throws with
    the sample defaults as with none, and on [new Hint(undefined, {})]. *)
Lemma constructor_options_skip_defaults_witness :
  constructor (H := bare_page) None (Some {["isActive" := VBool false]}) empty_world
    = constructor (H := sample_page) None (Some {["isActive" := VBool false]}) empty_world
  /\ ({["isActive" := VBool false]} : Options) <> ∅
  /\ (exists w',
        constructor (H := sample_page) None (Some {["isActive" := VBool false]}) empty_world
          = Throw (TypeError "Cannot set properties of undefined") w'
        /\ instances w' = instances empty_world)
  /\ (exists this w' o,
        constructor (H := sample_page) None (Some ∅) empty_world = Return this w'
        /\ instances w' !! this = Some o
        /\ _options o = None
        /\ forall key,
             getOption this key w'
               = Throw (TypeError "Cannot read properties of undefined") w').
Proof.
  assert (Hne : ({["isActive" := VBool false]} : Options) <> ∅).
  { intros Hempty. apply (f_equal (fun m : Options => m !! "isActive")) in Hempty.
    vm_compute in Hempty. discriminate. }
  destruct (constructor_options_skip_defaults sample_page None
              {["isActive" := VBool false]} empty_world) as (Hsame & Hthrow & _).
  destruct (constructor_options_skip_defaults sample_page None ∅ empty_world)
    as (_ & _ & Hbare).
  split; [exact (Hsame bare_page eq_refl) |].
  split; [exact Hne |].
  split; [exact (Hthrow Hne) | exact (Hbare eq_refl)].
Defined.

(** * Further properties of the class *)

(** ** New objects *)

Lemma fresh_array_unused (w : World) :
  arrays w !! fresh (dom (arrays w)) = None.
Proof. apply not_elem_of_dom, is_fresh. Qed.

Lemma fresh_instance_unused (w : World) :
  instances w !! fresh (dom (instances w)) = None.
Proof. apply not_elem_of_dom, is_fresh. Qed.

Lemma lookup_insert_fresh {A} (m : gmap loc A) (k j : loc) (x y : A) :
  m !! j = Some y -> m !! k = None -> <[k := x]> m !! j = Some y.
Proof.
  intros Hj Hk. rewrite lookup_insert_ne; [exact Hj |].
  intros ->. congruence.
Qed.

Lemma callback_read (this : loc) (o : Hint) (name : string) (w : World) :
  instances w !! this = Some o ->
  callback this name w
  = Return (let v := default VUndefined (callbacks o !! name) in
            if isFunction v then v else VUndefined) w.
Proof.
  intros Hlive. unfold callback.
  rewrite (bind_return _ _ _ _ _ (read_live _ _ _ Hlive)).
  simpl. now destruct (isFunction _).
Qed.

Lemma getTargetElement_live (this : loc) (o : Hint) (w : World) :
  instances w !! this = Some o ->
  getTargetElement this w = Return (_targetElement o) w.
Proof.
  intros Hlive. unfold getTargetElement.
  now rewrite (bind_return _ _ _ _ _ (read_live _ _ _ Hlive)).
Qed.

(** X1. [new Hint(elementOrSelector)] without options returns an object
    that was not an instance before, with a new empty array as its list,
    and leaves every earlier instance and array as it was. On the new
    instance [getHint] is [undefined] at every step ID, [callback] is
    [undefined] for each of the three callback names, [getOption] returns
    the default of every key the table of defaults holds and
    [getTargetElement] is the resolved container. *)
Theorem constructor_default_instance
    (C : Ext.Collaborators) (elementOrSelector : option ElementOrSelector) (w : World) :
  let hints := fresh (dom (arrays w)) in
  let this := fresh (dom (instances w)) in
  exists w',
    constructor elementOrSelector None w = Return this w'
    /\ instances w !! this = None
    /\ arrays w !! hints = None
    /\ (forall t o, instances w !! t = Some o -> instances w' !! t = Some o)
    /\ (forall a xs, arrays w !! a = Some xs -> arrays w' !! a = Some xs)
    /\ markers w' = markers w
    /\ listeners w' = listeners w
    /\ getHints this w' = Return hints w'
    /\ (forall stepId, getHint this stepId w' = Return None w')
    /\ (forall name,
          name ∈ ["hintsAdded"; "hintClick"; "hintClose"] ->
          callback this name w' = Return VUndefined w')
    /\ (forall key v,
          Ext.getDefaultHintOptions !! key = Some v ->
          getOption this key w' = Return v w')
    /\ getTargetElement this w' = Return (Ext.getContainerElement elementOrSelector) w'.
Proof.
  intros hints this. eexists. split; [apply constructor_without_options |].
  fold hints this.
  set (o := mkHint hints (Ext.getContainerElement elementOrSelector)
              (Some Ext.getDefaultHintOptions) ∅ None).
  set (w' := set_instances (insert this o) (set_arrays (insert hints []) w)).
  assert (Hlive : instances w' !! this = Some o) by (simpl; apply lookup_insert_eq).
  assert (Harr : arrays w' !! _hints o = Some []) by (simpl; apply lookup_insert_eq).
  split; [apply fresh_instance_unused |].
  split; [apply fresh_array_unused |].
  split.
  { intros t ot Ht. simpl. eapply lookup_insert_fresh; [exact Ht |].
    apply fresh_instance_unused. }
  split.
  { intros a xs Ha. simpl. eapply lookup_insert_fresh; [exact Ha |].
    apply fresh_array_unused. }
  split; [reflexivity |]. split; [reflexivity |].
  split; [apply (getHints_live _ _ _ Hlive) |].
  split.
  { intros stepId. rewrite (getHint_live _ _ _ _ _ Hlive Harr).
    unfold array_get. now destruct (decide _). }
  split.
  { intros name _. now rewrite (callback_read _ _ _ _ Hlive). }
  split.
  { intros key v Hkey. unfold getOption.
    rewrite (bind_return _ _ _ _ _ (read_live _ _ _ Hlive)). simpl.
    now rewrite Hkey. }
  apply (getTargetElement_live _ _ _ Hlive).
Qed.

(** X2. Two instances made by [new Hint()] are different objects and do
    not share their list: after [addHint] on the first, [getHint(0)] on it
    returns the added item and [getHint] on the second is still
    [undefined] at every step ID. *)
Theorem new_instances_independent
    (C : Ext.Collaborators) (e1 e2 : option ElementOrSelector) (x : HintItem) (w : World) :
  exists this1 this2 w',
    (this1 <- constructor e1 None ;;
     this2 <- constructor e2 None ;;
     addHint this1 x ;;
     ret (this1, this2)) w = Return (this1, this2) w'
    /\ this1 <> this2
    /\ getHint this1 0 w' = Return (Some x) w'
    /\ forall stepId, getHint this2 stepId w' = Return None w'.
Proof.
  set (a1 := fresh (dom (arrays w))).
  set (t1 := fresh (dom (instances w))).
  set (o1 := mkHint a1 (Ext.getContainerElement e1) (Some Ext.getDefaultHintOptions) ∅ None).
  set (w1 := set_instances (insert t1 o1) (set_arrays (insert a1 []) w)).
  set (a2 := fresh (dom (arrays w1))).
  set (t2 := fresh (dom (instances w1))).
  set (o2 := mkHint a2 (Ext.getContainerElement e2) (Some Ext.getDefaultHintOptions) ∅ None).
  set (w2 := set_instances (insert t2 o2) (set_arrays (insert a2 []) w1)).
  assert (Ht : t1 <> t2).
  { intros Heq. pose proof (fresh_instance_unused w1) as Hfresh. fold t2 in Hfresh.
    rewrite <- Heq in Hfresh. unfold w1 in Hfresh. simpl in Hfresh.
    rewrite lookup_insert_eq in Hfresh. discriminate. }
  assert (Ha : a1 <> a2).
  { intros Heq. pose proof (fresh_array_unused w1) as Hfresh. fold a2 in Hfresh.
    rewrite <- Heq in Hfresh. unfold w1 in Hfresh. simpl in Hfresh.
    rewrite lookup_insert_eq in Hfresh. discriminate. }
  assert (Hlive1 : instances w2 !! t1 = Some o1).
  { unfold w2. simpl. rewrite lookup_insert_ne by congruence. apply lookup_insert_eq. }
  assert (Harr1 : arrays w2 !! _hints o1 = Some []).
  { unfold w2. simpl. rewrite lookup_insert_ne by congruence. apply lookup_insert_eq. }
  set (w3 := set_arrays (insert a1 ([] ++ [x])) w2).
  exists t1, t2, w3. split; [| split; [exact Ht | split]].
  - rewrite (bind_return _ _ _ _ _ (constructor_without_options C e1 w)).
    fold a1 t1 o1 w1.
    rewrite (bind_return _ _ _ _ _ (constructor_without_options C e2 w1)).
    fold a2 t2 o2 w2.
    now rewrite (bind_return _ _ _ _ _ (addHint_live _ _ _ _ _ Hlive1 Harr1)).
  - apply (getHint_live t1 o1 ([] ++ [x])).
    + exact Hlive1.
    + unfold w3. simpl. apply lookup_insert_eq.
  - intros stepId.
    assert (Hlive2 : instances w3 !! t2 = Some o2) by (simpl; apply lookup_insert_eq).
    assert (Harr2 : arrays w3 !! _hints o2 = Some []).
    { unfold w3. simpl. rewrite lookup_insert_ne by congruence. apply lookup_insert_eq. }
    rewrite (getHint_live _ _ _ _ _ Hlive2 Harr2).
    unfold array_get. now destruct (decide _).
Qed.

(** ** Arrays are held by reference *)

(** X3. [setHints] keeps the caller's array itself, not a copy: when two
    instances are given the same array, [addHint] on one extends that
    array, and [getHint] on the other reads the added item. *)
Theorem setHints_shares_array
    (this1 this2 : loc) (o1 o2 : Hint) (a : loc) (hs : list HintItem) (x : HintItem)
    (w : World) :
  this1 <> this2 ->
  instances w !! this1 = Some o1 ->
  instances w !! this2 = Some o2 ->
  arrays w !! a = Some hs ->
  exists w',
    (setHints this1 a ;; setHints this2 a ;; addHint this1 x) w = Return this1 w'
    /\ arrays w' !! a = Some (hs ++ [x])
    /\ getHints this1 w' = Return a w'
    /\ getHints this2 w' = Return a w'
    /\ getHint this2 (Z.of_nat (length hs)) w' = Return (Some x) w'.
Proof.
  intros Hne Hlive1 Hlive2 Harr.
  set (w1 := set_instances (insert this1 (with_hints a o1)) w).
  set (w2 := set_instances (insert this2 (with_hints a o2)) w1).
  set (w3 := set_arrays (insert a (hs ++ [x])) w2).
  assert (Hlive2' : instances w1 !! this2 = Some o2).
  { unfold w1. simpl. now rewrite lookup_insert_ne. }
  assert (Hlive1'' : instances w3 !! this1 = Some (with_hints a o1)).
  { unfold w3, w2, w1. simpl. rewrite lookup_insert_ne by congruence.
    apply lookup_insert_eq. }
  assert (Hlive2'' : instances w3 !! this2 = Some (with_hints a o2)).
  { unfold w3, w2. simpl. apply lookup_insert_eq. }
  assert (Harr'' : arrays w3 !! a = Some (hs ++ [x])).
  { unfold w3. simpl. apply lookup_insert_eq. }
  exists w3. split; [| split; [exact Harr'' | split; [| split]]].
  - rewrite (bind_return _ _ _ _ _ (setHints_live _ _ _ _ Hlive1)). fold w1.
    rewrite (bind_return _ _ _ _ _ (setHints_live _ _ _ _ Hlive2')). fold w2.
    apply (addHint_live this1 (with_hints a o1) hs).
    + unfold w2, w1. simpl. rewrite lookup_insert_ne by congruence.
      apply lookup_insert_eq.
    + exact Harr.
  - apply (getHints_live _ _ _ Hlive1'').
  - apply (getHints_live _ _ _ Hlive2'').
  - rewrite (getHint_live _ _ _ _ _ Hlive2'' Harr''). f_equal.
    rewrite array_get_nat. rewrite lookup_app_r by lia.
    now replace (length hs - length hs) with 0 by lia.
Qed.

(** ** Rendering *)

(** X4. [render()] goes by the truthiness of the [isActive] option. When it
    is truthy, the store afterwards is the one [renderHints] leaves on
    what [fetchHintItems] left, in that order. When it is falsy, and so
    when the options have no [isActive] key at all, nothing is fetched or
    rendered. In every case the instance is returned. *)
Theorem render_by_isActive
    (C : Ext.Collaborators) (this : loc) (o : Hint) (opts : Options) (w : World) :
  instances w !! this = Some o ->
  _options o = Some opts ->
  (truthy (default VUndefined (opts !! "isActive")) = true ->
     render this w = Return this (Ext.renderHints this (Ext.fetchHintItems this w)))
  /\ (truthy (default VUndefined (opts !! "isActive")) = false ->
        render this w = Return this w)
  /\ (opts !! "isActive" = None -> render this w = Return this w).
Proof.
  intros Hlive Hopts.
  assert (Hrun : render this w
    = if negb (truthy (default VUndefined (opts !! "isActive")))
      then Return this w
      else Return this (Ext.renderHints this (Ext.fetchHintItems this w))).
  { unfold render, isActive.
    rewrite (bind_return _ _ _ _ _ (getOption_live _ _ _ _ _ Hlive Hopts)).
    now destruct (negb _). }
  split; [| split].
  - intros Htrue. now rewrite Hrun, Htrue.
  - intros Hfalse. now rewrite Hrun, Hfalse.
  - intros Hnone. now rewrite Hrun, Hnone.
Qed.

(** ** Reading and writing options *)

Lemma setOption_live
    (this : loc) (o : Hint) (opts : Options) (key : string) (value : Value) (w : World) :
  instances w !! this = Some o ->
  _options o = Some opts ->
  setOption this key value w
  = Return this
      (set_instances (insert this (with_options (Some (<[key := value]> opts)) o)) w).
Proof.
  intros Hlive Hopts. unfold setOption.
  rewrite (bind_return _ _ _ _ _ (read_live _ _ _ Hlive)).
  rewrite Hopts. simpl. unfold bind at 1. unfold ret at 1. unfold bind at 1.
  now rewrite (assign_live _ _ _ _ Hlive).
Qed.

(** X5. On an instance whose options are assigned, [setOption(key, value)]
    with a key other than [__proto__] returns the instance; [getOption(key)]
    then returns that value, [getOption] of every other key the options
    held returns the value they held, and [getOption] of every other key
    at all returns what it returned before the call. The list is not
    touched. *)
Theorem setOption_getOption
    (this : loc) (o : Hint) (opts : Options) (key : string) (value : Value) (w : World) :
  instances w !! this = Some o ->
  _options o = Some opts ->
  key <> "__proto__" ->
  exists w',
    setOption this key value w = Return this w'
    /\ getOption this key w' = Return value w'
    /\ (forall key' held, key' <> key ->
          opts !! key' = Some held ->
          getOption this key' w' = Return held w')
    /\ (forall key', key' <> key ->
          exists before,
            getOption this key' w = Return before w
            /\ getOption this key' w' = Return before w')
    /\ getHints this w' = Return (_hints o) w'
    /\ arrays w' = arrays w.
Proof.
  intros Hlive Hopts _. eexists.
  split; [apply (setOption_live _ _ _ _ _ _ Hlive Hopts) |].
  set (o' := with_options (Some (<[key := value]> opts)) o).
  set (w' := set_instances (insert this o') w).
  assert (Hlive' : instances w' !! this = Some o') by (simpl; apply lookup_insert_eq).
  assert (Hother : forall key', key' <> key ->
    getOption this key' w' = Return (default VUndefined (opts !! key')) w').
  { intros key' Hne. rewrite (getOption_live _ _ _ _ _ Hlive' eq_refl).
    now rewrite lookup_insert_ne by congruence. }
  split; [| split; [| split; [| split]]].
  - rewrite (getOption_live _ _ _ _ _ Hlive' eq_refl). now rewrite lookup_insert_eq.
  - intros key' held Hne Hheld. rewrite (Hother key' Hne). now rewrite Hheld.
  - intros key' Hne. eexists. split.
    + apply (getOption_live _ _ _ _ _ Hlive Hopts).
    + apply (Hother key' Hne).
  - apply (getHints_live _ _ _ Hlive').
  - reflexivity.
Qed.

Lemma with_options_same (o : Hint) (opts : Options) :
  _options o = Some opts -> with_options (Some opts) o = o.
Proof. intros Hopts. destruct o. simpl in *. now subst. Qed.

Lemma set_instances_same (this : loc) (o : Hint) (w : World) :
  instances w !! this = Some o -> set_instances (insert this o) w = w.
Proof.
  intros Hlive. destruct w as [ins arr ms ls cs]. unfold set_instances. simpl in *.
  f_equal. now apply insert_id.
Qed.

(** X6. On an instance whose options are assigned, [setOptions(partial)]
    with a partial record that has no [__proto__] key returns the
    instance; [getOption] then returns the value of the partial record
    for every key it has, and for every key it has not, what [getOption]
    returned before the call. With an empty partial record the store is
    as it was, and two calls in a row leave the store of one call with
    the second record merged over the first. *)
Theorem setOptions_getOption
    (this : loc) (o : Hint) (opts partialOptions : Options) (w : World) :
  instances w !! this = Some o ->
  _options o = Some opts ->
  partialOptions !! "__proto__" = None ->
  (exists w',
     setOptions this partialOptions w = Return this w'
     /\ (forall key value,
           partialOptions !! key = Some value ->
           getOption this key w' = Return value w')
     /\ (forall key,
           partialOptions !! key = None ->
           exists before,
             getOption this key w = Return before w
             /\ getOption this key w' = Return before w'))
  /\ setOptions this ∅ w = Return this w
  /\ (forall more : Options,
        more !! "__proto__" = None ->
        (setOptions this partialOptions ;; setOptions this more) w
        = setOptions this (more ∪ partialOptions) w).
Proof.
  intros Hlive Hopts _. split; [| split].
  - eexists. split; [apply (setOptions_live _ _ _ _ _ Hlive Hopts) |].
    assert (Hget : forall key,
      getOption this key
        (set_instances
           (insert this (with_options (Some (partialOptions ∪ opts)) o)) w)
      = Return (default (default VUndefined (opts !! key)) (partialOptions !! key))
          (set_instances
             (insert this (with_options (Some (partialOptions ∪ opts)) o)) w)).
    { intros key.
      erewrite getOption_live; [| simpl; apply lookup_insert_eq | reflexivity].
      f_equal. rewrite lookup_union.
      destruct (partialOptions !! key), (opts !! key); reflexivity. }
    split.
    + intros key value Hkey. rewrite Hget. now rewrite Hkey.
    + intros key Hkey. eexists. split.
      * apply (getOption_live _ _ _ _ _ Hlive Hopts).
      * rewrite Hget. now rewrite Hkey.
  - rewrite (setOptions_live _ _ _ _ _ Hlive Hopts).
    rewrite (left_id_L ∅ (∪)). rewrite (with_options_same _ _ Hopts).
    now rewrite (set_instances_same _ _ _ Hlive).
  - intros more _.
    rewrite (bind_return _ _ _ _ _ (setOptions_live _ _ _ _ _ Hlive Hopts)).
    erewrite setOptions_live; [| simpl; apply lookup_insert_eq | reflexivity].
    rewrite (setOptions_live _ _ _ _ _ Hlive Hopts).
    f_equal. destruct w as [ins arr ms ls cs]. unfold set_instances. simpl.
    f_equal. rewrite insert_insert_eq. f_equal. unfold with_options. simpl.
    f_equal. f_equal. now rewrite (assoc_L (∪)).
Qed.

(** ** The registry of callbacks *)

Lemma registrars_store (this : loc) (o : Hint) (f : fn) (w : World) :
  instances w !! this = Some o ->
  let stored name :=
    set_instances
      (insert this (with_callbacks (<[name := VFunction f]> (callbacks o)) o)) w in
  onHintsAdded this (VFunction f) w = Return this (stored "hintsAdded")
  /\ onHintClick this (VFunction f) w = Return this (stored "hintClick")
  /\ onHintClose this (VFunction f) w = Return this (stored "hintClose").
Proof.
  intros Hlive stored. unfold onHintsAdded, onHintClick, onHintClose. simpl.
  repeat split.
  - unfold bind at 1. unfold ret at 1. unfold bind at 1.
    now rewrite (assign_live _ _ _ _ Hlive).
  - unfold bind at 1. unfold ret at 1. unfold bind at 1.
    now rewrite (assign_live _ _ _ _ Hlive).
  - unfold bind at 1. now rewrite (assign_live _ _ _ _ Hlive).
Qed.

Lemma registrars_reject (this : loc) (v : Value) (w : World) :
  (forall f, v <> VFunction f) ->
  (exists e, onHintsAdded this v w = Throw e w)
  /\ (exists e, onHintClick this v w = Throw e w)
  /\ (exists e, onHintClose this v w = Throw e w).
Proof.
  intros Hv. apply isFunction_false in Hv.
  unfold onHintsAdded, onHintClick, onHintClose, bind, throw. rewrite Hv. simpl.
  repeat split; eexists; reflexivity.
Qed.

Lemma registry_of_registrar
    (register : loc -> Value -> M loc) (key : string)
    (this : loc) (o : Hint) (w : World) (f g : fn) (v : Value) (name : string) :
  (forall o' w' h,
     instances w' !! this = Some o' ->
     register this (VFunction h) w'
     = Return this
         (set_instances
            (insert this (with_callbacks (<[key := VFunction h]> (callbacks o')) o')) w')) ->
  (forall w', exists e, register this v w' = Throw e w') ->
  instances w !! this = Some o ->
  exists w1 w2 e,
    register this (VFunction f) w = Return this w1
    /\ (name <> key ->
        exists u, callback this name w = Return u w /\ callback this name w1 = Return u w1)
    /\ register this (VFunction g) w1 = Return this w2
    /\ callback this key w2 = Return (VFunction g) w2
    /\ register this v w2 = Throw e w2.
Proof.
  intros Hstore Hreject Hlive.
  set (o1 := with_callbacks (<[key := VFunction f]> (callbacks o)) o).
  set (w1 := set_instances (insert this o1) w).
  assert (Hlive1 : instances w1 !! this = Some o1) by (simpl; apply lookup_insert_eq).
  set (o2 := with_callbacks (<[key := VFunction g]> (callbacks o1)) o1).
  set (w2 := set_instances (insert this o2) w1).
  assert (Hlive2 : instances w2 !! this = Some o2) by (simpl; apply lookup_insert_eq).
  destruct (Hreject w2) as [e He].
  exists w1, w2, e.
  split; [apply (Hstore _ _ _ Hlive) |].
  split.
  { intros Hne. eexists. split; [apply (callback_read _ _ _ _ Hlive) |].
    rewrite (callback_read _ _ _ _ Hlive1). simpl.
    now rewrite lookup_insert_ne by congruence. }
  split; [apply (Hstore _ _ _ Hlive1) |].
  split; [| exact He].
  apply (callback_live _ _ _ _ _ Hlive2). simpl. apply lookup_insert_eq.
Qed.

(** X7. For each of [onHintsAdded], [onHintClick] and [onHintClose], with
    its callback name: registering a function leaves what [callback]
    returns for every other name as it was; registering a second function
    replaces the first, which [callback] then returns; and a later call
    with a value that is not a function throws and leaves that second
    function registered. *)
Theorem callbacks_registry
    (this : loc) (o : Hint) (w : World) (f g : fn) (v : Value) (name : string) :
  instances w !! this = Some o ->
  (forall h, v <> VFunction h) ->
  let holds (register : loc -> Value -> M loc) (key : string) :=
    exists w1 w2 e,
      register this (VFunction f) w = Return this w1
      /\ (name <> key ->
          exists u, callback this name w = Return u w /\ callback this name w1 = Return u w1)
      /\ register this (VFunction g) w1 = Return this w2
      /\ callback this key w2 = Return (VFunction g) w2
      /\ register this v w2 = Throw e w2 in
  holds onHintsAdded "hintsAdded"
  /\ holds onHintClick "hintClick"
  /\ holds onHintClose "hintClose".
Proof.
  intros Hlive Hv holds. unfold holds. repeat split.
  - apply (registry_of_registrar _ _ this o); [| | exact Hlive].
    + intros o' w' h Hlive'. apply (registrars_store this o' h w' Hlive').
    + intros w'. apply (registrars_reject this v w' Hv).
  - apply (registry_of_registrar _ _ this o); [| | exact Hlive].
    + intros o' w' h Hlive'. apply (registrars_store this o' h w' Hlive').
    + intros w'. apply (registrars_reject this v w' Hv).
  - apply (registry_of_registrar _ _ this o); [| | exact Hlive].
    + intros o' w' h Hlive'. apply (registrars_store this o' h w' Hlive').
    + intros w'. apply (registrars_reject this v w' Hv).
Qed.

Lemma registrar_outcome (this : loc) (v : Value) (w : World) :
  let returns_this (m : M loc) :=
    (exists w', m w = Return this w') \/ (exists e w', m w = Throw e w') in
  returns_this (onHintsAdded this v)
  /\ returns_this (onHintClick this v)
  /\ returns_this (onHintClose this v).
Proof.
  intros returns_this. unfold returns_this.
  unfold onHintsAdded, onHintClick, onHintClose, assign, write, effect, bind, read,
    throw, ret.
  destruct (isFunction v); simpl; destruct (instances w !! this); simpl;
    repeat split; eauto.
Qed.

(** X8. The deprecated [onhintsadded], [onhintclick] and [onhintclose]
    register or reject exactly as [onHintsAdded], [onHintClick] and
    [onHintClose] do, with the same store afterwards and the same error,
    but where the current registrar returns the instance the deprecated
    one returns nothing. *)
Theorem deprecated_registrars (this : loc) (v : Value) (w : World) :
  let same (old : loc -> Value -> M unit) (new : loc -> Value -> M loc) :=
    (exists w', new this v w = Return this w' /\ old this v w = Return tt w')
    \/ (exists e w', new this v w = Throw e w' /\ old this v w = Throw e w') in
  same onhintsadded onHintsAdded
  /\ same onhintclick onHintClick
  /\ same onhintclose onHintClose.
Proof.
  intros same. unfold same.
  destruct (registrar_outcome this v w) as (Hadded & Hclick & Hclose).
  repeat split.
  - destruct Hadded as [[w' Hr] | (e & w' & Ht)].
    + left. exists w'. split; [exact Hr |]. unfold onhintsadded.
      now rewrite (bind_return _ _ _ _ _ Hr).
    + right. exists e, w'. split; [exact Ht |]. unfold onhintsadded.
      now rewrite (bind_throw _ _ _ _ _ Ht).
  - destruct Hclick as [[w' Hr] | (e & w' & Ht)].
    + left. exists w'. split; [exact Hr |]. unfold onhintclick.
      now rewrite (bind_return _ _ _ _ _ Hr).
    + right. exists e, w'. split; [exact Ht |]. unfold onhintclick.
      now rewrite (bind_throw _ _ _ _ _ Ht).
  - destruct Hclose as [[w' Hr] | (e & w' & Ht)].
    + left. exists w'. split; [exact Hr |]. unfold onhintclose.
      now rewrite (bind_return _ _ _ _ _ Hr).
    + right. exists e, w'. split; [exact Ht |]. unfold onhintclose.
      now rewrite (bind_throw _ _ _ _ _ Ht).
Qed.

(** ** Auto refresh, further *)

Lemma enableHintAutoRefresh_on
    (C : Ext.Collaborators) (this : loc) (o : Hint) (opts : Options) (n : Z) (w : World) :
  instances w !! this = Some o ->
  _options o = Some opts ->
  opts !! "hintAutoRefreshInterval" = Some (VNumber n) ->
  (0 <= n)%Z ->
  let f := length (closures w) in
  enableHintAutoRefresh this w
  = Return this
      (mkWorld (<[this := with_autoRefresh (Some f) o]> (instances w)) (arrays w) (markers w)
         (addEventListener ("resize", f, true)
            (addEventListener ("scroll", f, true) (listeners w)))
         (closures w ++ [Debounced this (VNumber n)])).
Proof.
  intros Hlive Hopts Hkey Hn f.
  assert (Hge : ge_zero (VNumber n) = true).
  { unfold ge_zero. simpl. now apply Z.leb_le. }
  unfold enableHintAutoRefresh.
  rewrite (bind_return _ _ _ _ _ (getOption_live _ _ _ _ _ Hlive Hopts)).
  rewrite Hkey. simpl default. rewrite Hge.
  unfold bind at 1. unfold bind at 1. unfold debounce at 1.
  unfold bind at 1. unfold assign at 1. unfold bind at 1. unfold read at 1.
  simpl instances. rewrite Hlive. reflexivity.
Qed.

Lemma disableHintAutoRefresh_off (this : loc) (o : Hint) (f : fn) (w : World) :
  instances w !! this = Some o ->
  _hintsAutoRefreshFunction o = Some f ->
  disableHintAutoRefresh this w
  = Return this
      (mkWorld (<[this := with_autoRefresh None o]> (instances w)) (arrays w) (markers w)
         (addEventListener ("resize", f, true)
            (removeEventListener ("scroll", f, true) (listeners w)))
         (closures w)).
Proof.
  intros Hlive Hf. unfold disableHintAutoRefresh.
  rewrite (bind_return _ _ _ _ _ (read_live _ _ _ Hlive)). rewrite Hf.
  unfold bind, DOMEvent.off, DOMEvent.on, assign, bind, read, write, effect. simpl.
  now rewrite Hlive.
Qed.

Lemma disableHintAutoRefresh_none (this : loc) (o : Hint) (w : World) :
  instances w !! this = Some o ->
  _hintsAutoRefreshFunction o = None ->
  disableHintAutoRefresh this w = Return this w.
Proof.
  intros Hlive Hf. unfold disableHintAutoRefresh.
  rewrite (bind_return _ _ _ _ _ (read_live _ _ _ Hlive)). now rewrite Hf.
Qed.

(** X9. [enableHintAutoRefresh()] registers nothing when the
    [hintAutoRefreshInterval] option is a negative number or is missing
    from the options: the instance is returned and the store, with its
    listeners and the stored refresh function, is as it was. *)
Theorem enableHintAutoRefresh_skips
    (C : Ext.Collaborators) (this : loc) (o : Hint) (opts : Options) (w : World) :
  instances w !! this = Some o ->
  _options o = Some opts ->
  (opts !! "hintAutoRefreshInterval" = None
   \/ exists n, opts !! "hintAutoRefreshInterval" = Some (VNumber n) /\ (n < 0)%Z) ->
  enableHintAutoRefresh this w = Return this w.
Proof.
  intros Hlive Hopts Hkey. unfold enableHintAutoRefresh.
  rewrite (bind_return _ _ _ _ _ (getOption_live _ _ _ _ _ Hlive Hopts)).
  destruct Hkey as [Hnone | (n & Hn & Hneg)].
  - rewrite Hnone. reflexivity.
  - rewrite Hn. simpl default. unfold ge_zero. simpl.
    apply Z.leb_gt in Hneg. now rewrite Hneg.
Qed.

(** X10. [disableHintAutoRefresh()] changes nothing on an instance that
    holds no refresh function, and calling it twice in a row has the
    outcome of calling it once, on every instance. *)
Theorem disableHintAutoRefresh_idempotent (this : loc) (w : World) :
  (forall o,
     instances w !! this = Some o ->
     _hintsAutoRefreshFunction o = None ->
     disableHintAutoRefresh this w = Return this w)
  /\ (disableHintAutoRefresh this ;; disableHintAutoRefresh this) w
     = disableHintAutoRefresh this w.
Proof.
  split; [intros o; apply disableHintAutoRefresh_none |].
  destruct (instances w !! this) as [o |] eqn:Hlive.
  - destruct (_hintsAutoRefreshFunction o) as [f |] eqn:Hf.
    + rewrite (disableHintAutoRefresh_off _ _ _ _ Hlive Hf).
      erewrite bind_return; [| apply (disableHintAutoRefresh_off _ _ _ _ Hlive Hf)].
      eapply disableHintAutoRefresh_none; [simpl; apply lookup_insert_eq | reflexivity].
    + rewrite (disableHintAutoRefresh_none _ _ _ Hlive Hf).
      erewrite bind_return; [| apply (disableHintAutoRefresh_none _ _ _ Hlive Hf)].
      apply (disableHintAutoRefresh_none _ _ _ Hlive Hf).
  - unfold bind at 1. unfold disableHintAutoRefresh, bind, read. now rewrite Hlive.
Qed.

(** X11. Each [enableHintAutoRefresh()] makes a new debounced function and
    keeps only the last one on the instance. After two calls,
    [disableHintAutoRefresh()] detaches the "scroll" listener of the
    second function only: both listeners of the first function are still
    registered, and the instance holds no function to remove them with. *)
Theorem enableHintAutoRefresh_twice
    (C : Ext.Collaborators) (this : loc) (o : Hint) (opts : Options) (n : Z) (w : World) :
  instances w !! this = Some o ->
  _options o = Some opts ->
  opts !! "hintAutoRefreshInterval" = Some (VNumber n) ->
  (0 <= n)%Z ->
  let first := length (closures w) in
  let second := S (length (closures w)) in
  exists w',
    (enableHintAutoRefresh this ;;
     enableHintAutoRefresh this ;;
     disableHintAutoRefresh this) w = Return this w'
    /\ ("scroll", first, true) ∈ listeners w'
    /\ ("resize", first, true) ∈ listeners w'
    /\ (("scroll", second, true) ∉ listeners w')
    /\ instances w' !! this = Some (with_autoRefresh None o).
Proof.
  intros Hlive Hopts Hkey Hn first second.
  eexists. split.
  - rewrite (bind_return _ _ _ _ _ (enableHintAutoRefresh_on C _ _ _ _ _ Hlive Hopts Hkey Hn)).
    erewrite bind_return;
      [| eapply (enableHintAutoRefresh_on C);
         [simpl; apply lookup_insert_eq | exact Hopts | exact Hkey | exact Hn]].
    eapply disableHintAutoRefresh_off; [simpl; apply lookup_insert_eq | reflexivity].
  - simpl. rewrite length_app. simpl. replace (length (closures w) + 1) with second by
      (unfold second; lia).
    fold first.
    assert (Hdiff : forall type type' : string,
      ((type, first, true) : Listener) <> (type', second, true)).
    { intros type type' Heq. injection Heq as _ Heq. unfold first, second in Heq. lia. }
    split; [| split; [| split]].
    + apply addEventListener_keeps, removeEventListener_keeps; [apply Hdiff |].
      do 3 apply addEventListener_keeps. apply addEventListener_elem.
    + apply addEventListener_keeps, removeEventListener_keeps; [apply Hdiff |].
      do 2 apply addEventListener_keeps. apply addEventListener_elem.
    + apply addEventListener_other; [discriminate | apply removeEventListener_gone].
    + rewrite !insert_insert_eq. apply lookup_insert_eq.
Qed.

(** ** The target element *)

Lemma targets_kept_refl (w : World) : targets_kept w w.
Proof. intros t o Ht. eauto. Qed.

Lemma targets_kept_trans (w1 w2 w3 : World) :
  targets_kept w1 w2 -> targets_kept w2 w3 -> targets_kept w1 w3.
Proof.
  intros H12 H23 t o Ht.
  destruct (H12 t o Ht) as (o2 & Ht2 & He2).
  destruct (H23 t o2 Ht2) as (o3 & Ht3 & He3).
  exists o3. split; [exact Ht3 | congruence].
Qed.

Lemma keeps_ret {A} (a : A) : keeps_targets (ret a).
Proof. intros w. apply targets_kept_refl. Qed.

Lemma keeps_throw {A} (e : Exception) : keeps_targets (throw (A := A) e).
Proof. intros w. apply targets_kept_refl. Qed.

Lemma keeps_bind {A B} (m : M A) (k : A -> M B) :
  keeps_targets m -> (forall a, keeps_targets (k a)) -> keeps_targets (bind m k).
Proof.
  intros Hm Hk w. unfold bind. specialize (Hm w).
  destruct (m w) as [a w' | e w']; simpl in *.
  - eapply targets_kept_trans; [exact Hm | apply Hk].
  - exact Hm.
Qed.

Lemma keeps_effect (f : World -> World) :
  (forall w, instances (f w) = instances w) -> keeps_targets (effect f).
Proof.
  intros Hf w t o Ht. simpl. rewrite Hf. eauto.
Qed.

Lemma keeps_read (this : loc) : keeps_targets (read this).
Proof.
  intros w. unfold read. destruct (instances w !! this); apply targets_kept_refl.
Qed.

Lemma keeps_read_array (a : loc) : keeps_targets (read_array a).
Proof.
  intros w. unfold read_array. destruct (arrays w !! a); apply targets_kept_refl.
Qed.

Lemma keeps_assign (this : loc) (f : Hint -> Hint) :
  (forall o, _targetElement (f o) = _targetElement o) -> keeps_targets (assign this f).
Proof.
  intros Hf w. unfold assign, write, effect, bind, read.
  destruct (instances w !! this) as [o |] eqn:Hlive; simpl; [| apply targets_kept_refl].
  intros t ot Ht. simpl. destruct (decide (this = t)) as [<- | Hne].
  - exists (f o). rewrite lookup_insert_eq. split; [reflexivity |].
    rewrite Hf. congruence.
  - exists ot. now rewrite lookup_insert_ne.
Qed.

Lemma keeps_setOption (options : option Options) (key : string) (value : Value) :
  keeps_targets (OptionUtil.setOption options key value).
Proof. destruct options; [apply keeps_ret | apply keeps_throw]. Qed.

Lemma keeps_setOptions (options : option Options) (partialOptions : Options) :
  keeps_targets (OptionUtil.setOptions options partialOptions).
Proof.
  unfold OptionUtil.setOptions.
  induction (map_to_list partialOptions) as [| entry entries IH]; simpl.
  - apply keeps_ret.
  - apply keeps_bind; [exact IH |]. intros options'. apply keeps_setOption.
Qed.

Lemma keeps_debounce (this : loc) (wait : Value) : keeps_targets (debounce this wait).
Proof. intros w t o Ht. simpl. eauto. Qed.

Lemma keeps_getOption (this : loc) (key : string) : keeps_targets (getOption this key).
Proof.
  unfold getOption. apply keeps_bind; [apply keeps_read |].
  intros o. destruct (_options o); [apply keeps_ret | apply keeps_throw].
Qed.

Lemma targets_kept_read (w w' : World) (t : loc) (e : HTMLElement) :
  targets_kept w w' ->
  getTargetElement t w = Return e w ->
  getTargetElement t w' = Return e w'.
Proof.
  intros Hkept Hget. unfold getTargetElement, bind, read in Hget.
  destruct (instances w !! t) as [o |] eqn:Hlive; [| discriminate].
  injection Hget as He. destruct (Hkept t o Hlive) as (o' & Hlive' & He').
  rewrite (getTargetElement_live _ _ _ Hlive'). congruence.
Qed.

(** X12. No method of the class that writes to an instance, to its list or
    to the listeners changes a target element: whatever [getTargetElement]
    returned on an instance before a call of [setHints], [addHint],
    [setOptions], [setOption], a registrar, [enableHintAutoRefresh],
    [disableHintAutoRefresh] or [destroy] on any instance, it returns
    after the call, whether the call returned or threw. *)
Theorem target_element_kept
    (C : Ext.Collaborators) (this : loc) (w : World)
    (hints : loc) (hint : HintItem) (partialOptions : Options)
    (key : string) (value v : Value) :
  let kept (m : M loc) :=
    forall t e,
      getTargetElement t w = Return e w ->
      getTargetElement t (world_after (m w)) = Return e (world_after (m w)) in
  kept (setHints this hints)
  /\ kept (addHint this hint)
  /\ kept (setOptions this partialOptions)
  /\ kept (setOption this key value)
  /\ kept (onHintsAdded this v)
  /\ kept (onHintClick this v)
  /\ kept (onHintClose this v)
  /\ kept (enableHintAutoRefresh this)
  /\ kept (disableHintAutoRefresh this)
  /\ kept (destroy this).
Proof.
  intros kept.
  assert (Hkept : forall m : M loc, keeps_targets m -> kept m).
  { intros m Hm t e. apply targets_kept_read, Hm. }
  assert (Hassign : forall f, (forall o, _targetElement (f o) = _targetElement o) ->
                              forall k : unit -> M loc, (forall u, keeps_targets (k u)) ->
                              keeps_targets (bind (assign this f) k)).
  { intros f Hf k Hk. apply keeps_bind; [now apply keeps_assign | exact Hk]. }
  repeat split; apply Hkept.
  - apply Hassign; [reflexivity |]. intros _. apply keeps_ret.
  - unfold addHint, array_push. apply keeps_bind; [apply keeps_read |]. intros o.
    apply keeps_bind; [| intros _; apply keeps_ret].
    apply keeps_bind; [apply keeps_read_array |]. intros xs.
    now apply keeps_effect.
  - unfold setOptions. apply keeps_bind; [apply keeps_read |]. intros o.
    apply keeps_bind; [apply keeps_setOptions |]. intros options.
    apply Hassign; [reflexivity |]. intros _. apply keeps_ret.
  - unfold setOption. apply keeps_bind; [apply keeps_read |]. intros o.
    apply keeps_bind; [apply keeps_setOption |]. intros options.
    apply Hassign; [reflexivity |]. intros _. apply keeps_ret.
  - unfold onHintsAdded. apply keeps_bind.
    { destruct (negb (isFunction v)); [apply keeps_throw | apply keeps_ret]. }
    intros _. apply Hassign; [reflexivity |]. intros _. apply keeps_ret.
  - unfold onHintClick. apply keeps_bind.
    { destruct (negb (isFunction v)); [apply keeps_throw | apply keeps_ret]. }
    intros _. apply Hassign; [reflexivity |]. intros _. apply keeps_ret.
  - unfold onHintClose. apply keeps_bind; [| intros _; apply keeps_ret].
    destruct (isFunction v); [now apply keeps_assign | apply keeps_throw].
  - unfold enableHintAutoRefresh. apply keeps_bind; [apply keeps_getOption |].
    intros interval. apply keeps_bind; [| intros _; apply keeps_ret].
    destruct (ge_zero interval); [| apply keeps_ret].
    apply keeps_bind; [apply keeps_debounce |]. intros f.
    apply keeps_bind; [now apply keeps_assign |]. intros _.
    apply keeps_bind; [now apply keeps_effect |]. intros _.
    now apply keeps_effect.
  - unfold disableHintAutoRefresh. apply keeps_bind; [apply keeps_read |]. intros o.
    apply keeps_bind; [| intros _; apply keeps_ret].
    destruct (_hintsAutoRefreshFunction o) as [f |]; [| apply keeps_ret].
    apply keeps_bind; [now apply keeps_effect |]. intros _.
    apply keeps_bind; [now apply keeps_effect |]. intros _.
    now apply keeps_assign.
  - unfold destroy. apply keeps_bind; [now apply keeps_effect |].
    intros _. apply keeps_ret.
Qed.

(** ** Switching rendering off and on *)

(** X13. After [setOption("isActive", false)], [render()] returns the
    instance and fetches and renders nothing, whatever the options held
    before; after [setOption("isActive", true)] on that store, [render()]
    fetches the items and then renders them. *)
Theorem render_follows_setOption
    (C : Ext.Collaborators) (this : loc) (o : Hint) (opts : Options) (w : World) :
  instances w !! this = Some o ->
  _options o = Some opts ->
  exists w1 w2,
    setOption this "isActive" (VBool false) w = Return this w1
    /\ render this w1 = Return this w1
    /\ setOption this "isActive" (VBool true) w1 = Return this w2
    /\ render this w2 = Return this (Ext.renderHints this (Ext.fetchHintItems this w2)).
Proof.
  intros Hlive Hopts.
  set (o1 := with_options (Some (<["isActive" := VBool false]> opts)) o).
  set (w1 := set_instances (insert this o1) w).
  assert (Hlive1 : instances w1 !! this = Some o1) by (simpl; apply lookup_insert_eq).
  set (o2 := with_options
               (Some (<["isActive" := VBool true]> (<["isActive" := VBool false]> opts))) o1).
  set (w2 := set_instances (insert this o2) w1).
  assert (Hlive2 : instances w2 !! this = Some o2) by (simpl; apply lookup_insert_eq).
  exists w1, w2.
  split; [apply (setOption_live _ _ _ _ _ _ Hlive Hopts) |].
  split.
  { unfold render, isActive.
    rewrite (bind_return _ _ _ _ _ (getOption_live _ _ _ _ _ Hlive1 eq_refl)).
    now rewrite lookup_insert_eq. }
  split; [apply (setOption_live _ _ _ _ _ _ Hlive1 eq_refl) |].
  unfold render, isActive.
  rewrite (bind_return _ _ _ _ _ (getOption_live _ _ _ _ _ Hlive2 eq_refl)).
  now rewrite lookup_insert_eq.
Qed.

(** * The further properties on the sample page *)

(** X1 on the sample page: the earlier instance is kept. *)
Lemma constructor_default_instance_witness :
  exists w',
    constructor (H := sample_page) None None fresh_page = Return 1 w'
    /\ instances w' !! 0 = Some fresh_hint
    /\ callback 1 "hintClick" w' = Return VUndefined w'
    /\ getOption 1 "isActive" w' = Return (VBool true) w'.
Proof.
  destruct (constructor_default_instance sample_page None fresh_page)
    as (w' & Hrun & _ & _ & Hkept & _ & _ & _ & _ & _ & Hcallback & Hoption & _).
  exists w'. split; [exact Hrun |]. split; [| split].
  - apply Hkept. vm_compute; reflexivity.
  - apply Hcallback. apply list_elem_of_In. simpl. tauto.
  - apply Hoption. vm_compute; reflexivity.
Defined.

(** X3 on the page with two instances: both are given array 2. *)
Lemma setHints_shares_array_witness :
  instances two_hints_page !! 0 = Some fresh_hint
  /\ instances two_hints_page !! 1 = Some (mkHint 1 0 (Some sample_defaults) ∅ None)
  /\ arrays two_hints_page !! 2 = Some [sample_item 1]
  /\ exists w',
       (setHints 0 2 ;; setHints 1 2 ;; addHint 0 (sample_item 2)) two_hints_page
         = Return 0 w'
       /\ getHint 1 1 w' = Return (Some (sample_item 2)) w'.
Proof.
  assert (H0 : instances two_hints_page !! 0 = Some fresh_hint) by (vm_compute; reflexivity).
  assert (H1 : instances two_hints_page !! 1
               = Some (mkHint 1 0 (Some sample_defaults) ∅ None))
    by (vm_compute; reflexivity).
  assert (H2 : arrays two_hints_page !! 2 = Some [sample_item 1]) by (vm_compute; reflexivity).
  split; [exact H0 |]. split; [exact H1 |]. split; [exact H2 |].
  destruct (setHints_shares_array 0 1 _ _ 2 [sample_item 1] (sample_item 2) two_hints_page
              ltac:(discriminate) H0 H1 H2)
    as (w' & Hrun & _ & _ & _ & Hget).
  exists w'. split; [exact Hrun | exact Hget].
Defined.

(** X4 on the sample page, active by default, and on the page without
    defaults, where the key is missing. *)
Lemma render_by_isActive_witness :
  render (H := sample_page) 0 fresh_page = Return 0 rendered_page
  /\ render (H := bare_page) 0 bare_fresh_page = Return 0 bare_fresh_page.
Proof.
  split.
  - destruct (render_by_isActive sample_page 0 fresh_hint sample_defaults fresh_page)
      as (Hactive & _ & _).
    + vm_compute; reflexivity.
    + reflexivity.
    + rewrite Hactive by (vm_compute; reflexivity). vm_compute; reflexivity.
  - destruct (render_by_isActive bare_page 0 bare_hint ∅ bare_fresh_page) as (_ & _ & Hmissing).
    + vm_compute; reflexivity.
    + reflexivity.
    + apply Hmissing. vm_compute; reflexivity.
Defined.

(** X5 on the sample page. *)
Lemma setOption_getOption_witness :
  instances fresh_page !! 0 = Some fresh_hint
  /\ exists w',
       setOption 0 "hintPosition" (VString "top-left") fresh_page = Return 0 w'
       /\ getOption 0 "hintPosition" w' = Return (VString "top-left") w'
       /\ getOption 0 "isActive" w' = Return (VBool true) w'
       /\ exists before,
            getOption 0 "tooltipClass" fresh_page = Return before fresh_page
            /\ getOption 0 "tooltipClass" w' = Return before w'.
Proof.
  assert (Hlive : instances fresh_page !! 0 = Some fresh_hint) by (vm_compute; reflexivity).
  split; [exact Hlive |].
  destruct (setOption_getOption 0 fresh_hint sample_defaults "hintPosition"
              (VString "top-left") fresh_page Hlive eq_refl ltac:(discriminate))
    as (w' & Hrun & Hsame & Hheld & Hother & _).
  exists w'. split; [exact Hrun |]. split; [exact Hsame |]. split.
  - apply Hheld; [discriminate | vm_compute; reflexivity].
  - apply Hother. discriminate.
Defined.

(** X6 on the sample page. *)
Lemma setOptions_getOption_witness :
  instances fresh_page !! 0 = Some fresh_hint
  /\ (exists w',
        setOptions 0 {["isActive" := VBool false]} fresh_page = Return 0 w'
        /\ getOption 0 "isActive" w' = Return (VBool false) w'
        /\ getOption 0 "hintAutoRefreshInterval" w' = Return (VNumber 10) w')
  /\ setOptions 0 ∅ fresh_page = Return 0 fresh_page.
Proof.
  assert (Hlive : instances fresh_page !! 0 = Some fresh_hint) by (vm_compute; reflexivity).
  split; [exact Hlive |].
  destruct (setOptions_getOption 0 fresh_hint sample_defaults {["isActive" := VBool false]}
              fresh_page Hlive eq_refl)
    as ((w' & Hrun & Hwritten & Hother) & _ & _); [vm_compute; reflexivity |].
  destruct (setOptions_getOption 0 fresh_hint sample_defaults ∅ fresh_page Hlive eq_refl)
    as (_ & Hempty & _); [vm_compute; reflexivity |].
  split; [| exact Hempty].
  exists w'. split; [exact Hrun |]. split.
  - apply Hwritten. vm_compute; reflexivity.
  - destruct (Hother "hintAutoRefreshInterval") as (before & Hbefore & Hafter);
      [vm_compute; reflexivity |].
    rewrite Hafter. f_equal.
    assert (Hten : getOption 0 "hintAutoRefreshInterval" fresh_page
                   = Return (VNumber 10) fresh_page) by (vm_compute; reflexivity).
    rewrite Hten in Hbefore. now injection Hbefore as <-.
Defined.

(** X7 on the sample page, for [onHintClose] and the value [null]. *)
Lemma callbacks_registry_witness :
  instances fresh_page !! 0 = Some fresh_hint
  /\ exists w1 w2 e,
       onHintClose 0 (VFunction 5) fresh_page = Return 0 w1
       /\ onHintClose 0 (VFunction 6) w1 = Return 0 w2
       /\ callback 0 "hintClose" w2 = Return (VFunction 6) w2
       /\ onHintClose 0 VNull w2 = Throw e w2.
Proof.
  assert (Hlive : instances fresh_page !! 0 = Some fresh_hint) by (vm_compute; reflexivity).
  split; [exact Hlive |].
  destruct (callbacks_registry 0 fresh_hint fresh_page 5 6 VNull "hintClick" Hlive
              ltac:(discriminate))
    as (_ & _ & (w1 & w2 & e & Hfirst & _ & Hsecond & Hread & Hreject)).
  exists w1, w2, e. repeat split; assumption.
Defined.

(** X9 on the page without defaults, where the interval is missing. *)
Lemma enableHintAutoRefresh_skips_witness :
  instances bare_fresh_page !! 0 = Some bare_hint
  /\ enableHintAutoRefresh (H := bare_page) 0 bare_fresh_page = Return 0 bare_fresh_page.
Proof.
  assert (Hlive : instances bare_fresh_page !! 0 = Some bare_hint) by (vm_compute; reflexivity).
  split; [exact Hlive |].
  apply (enableHintAutoRefresh_skips bare_page 0 bare_hint ∅ bare_fresh_page Hlive eq_refl).
  left. vm_compute; reflexivity.
Defined.

(** X10 on the sample page, where auto refresh was never enabled. *)
Lemma disableHintAutoRefresh_idempotent_witness :
  instances fresh_page !! 0 = Some fresh_hint
  /\ disableHintAutoRefresh 0 fresh_page = Return 0 fresh_page.
Proof.
  assert (Hlive : instances fresh_page !! 0 = Some fresh_hint) by (vm_compute; reflexivity).
  split; [exact Hlive |].
  destruct (disableHintAutoRefresh_idempotent 0 fresh_page) as (Hnone & _).
  exact (Hnone fresh_hint Hlive eq_refl).
Defined.

(** X11 on the sample page, whose interval is 10: functions 0 and 1. *)
Lemma enableHintAutoRefresh_twice_witness :
  instances fresh_page !! 0 = Some fresh_hint
  /\ exists w',
       (enableHintAutoRefresh (H := sample_page) 0 ;;
        enableHintAutoRefresh (H := sample_page) 0 ;;
        disableHintAutoRefresh 0) fresh_page = Return 0 w'
       /\ ("scroll", 0, true) ∈ listeners w'
       /\ ("resize", 0, true) ∈ listeners w'.
Proof.
  assert (Hlive : instances fresh_page !! 0 = Some fresh_hint) by (vm_compute; reflexivity).
  split; [exact Hlive |].
  destruct (enableHintAutoRefresh_twice sample_page 0 fresh_hint sample_defaults 10
              fresh_page Hlive eq_refl)
    as (w' & Hrun & Hscroll & Hresize & _).
  - vm_compute; reflexivity.
  - lia.
  - exists w'. split; [exact Hrun |]. split; [exact Hscroll | exact Hresize].
Defined.

(** X12 on the sample page: the target element of instance 0 after
    [setOption] and after a rejected [onHintClick]. *)
Lemma target_element_kept_witness :
  getTargetElement 0 fresh_page = Return 0 fresh_page
  /\ (let w' := world_after (setOption 0 "isActive" (VBool false) fresh_page) in
      getTargetElement 0 w' = Return 0 w')
  /\ (let w' := world_after (onHintClick 0 VNull fresh_page) in
      getTargetElement 0 w' = Return 0 w').
Proof.
  assert (Hget : getTargetElement 0 fresh_page = Return 0 fresh_page)
    by (vm_compute; reflexivity).
  destruct (target_element_kept sample_page 0 fresh_page 0 (sample_item 1) ∅
              "isActive" (VBool false) VNull)
    as (_ & _ & _ & HsetOption & _ & Hclick & _).
  split; [exact Hget |]. split.
  - exact (HsetOption 0 0 Hget).
  - exact (Hclick 0 0 Hget).
Defined.

(** X13 on the rendered sample page. *)
Lemma render_follows_setOption_witness :
  instances rendered_page !! 0 = Some fresh_hint
  /\ exists w1 w2,
       setOption 0 "isActive" (VBool false) rendered_page = Return 0 w1
       /\ render (H := sample_page) 0 w1 = Return 0 w1
       /\ setOption 0 "isActive" (VBool true) w1 = Return 0 w2
       /\ render (H := sample_page) 0 w2
          = Return 0 (Ext.renderHints (Collaborators := sample_page) 0
                        (Ext.fetchHintItems (Collaborators := sample_page) 0 w2)).
Proof.
  assert (Hlive : instances rendered_page !! 0 = Some fresh_hint) by (vm_compute; reflexivity).
  split; [exact Hlive |].
  exact (render_follows_setOption sample_page 0 fresh_hint sample_defaults rendered_page
           Hlive eq_refl).
Defined.
